(** * ContentCraft: the video-generation pipeline, embedded and verified

    A shallow embedding of the server-side pipeline of the repository:

    - [Meditag]      server/lib/meditagEngine.ts      Segmenter
    - [OpenAI]       server/lib/openai.ts             Script Drafter, LLM verdict
    - [Compliance]   server/lib/complianceChecker.ts  Compliance Evaluator
    - [HeyGen]       server/lib/heygenApi.ts          Video Synthesizer (the one
                                                      the service imports)
    - [Veo]          server/lib/veoApi.ts             Video Synthesizer (second
                                                      provider)
    - [Storage]      server/storage.ts                persistence; the file is
                                                      not among the sources
    - [VideoService] server/services/videoService.ts  Orchestrator, statistics
    - [Controller]   server/controllers/videoController.ts  upload, generate
                                                      and delete handlers

    Modelling conventions.

    - A JavaScript [number] is a binary64 value: Rocq's primitive [float].
      Literals such as [0.85] denote the same double as in the source,
      [>] is [PrimFloat.ltb] with its arguments swapped, [NaN] compares false
      with everything.  Row counts, identifiers and the integer [duration]
      column (and its running sum) are kept in [Z]: binary64 is exact on
      integers below 2^53.
    - A JavaScript string is a [string] of 8-bit code units.  Case mapping
      acts on the ASCII letters and [\s] / [trim] on the ASCII white space;
      all other code units are carried through unchanged.
    - [async]/[await] is sequential here, so a promise is the value it
      resolves to, or the error it rejects with: [Result].
    - [try]/[catch] is [try_catch]; [console.log] has no counterpart. *)

From Stdlib Require Import Bool Ascii String List ZArith Lia Floats Permutation.
From Stdlib Require Import DecimalString.
Import ListNotations.

Set Implicit Arguments.

Local Open Scope string_scope.
Local Open Scope Z_scope.

(* The decimal literals of the source (0.7, 0.85, ...) are not dyadic; they
   denote the nearest double, exactly as in JavaScript. *)
#[global] Set Warnings "-inexact-float".

(** ** JavaScript values and built-ins used by the pipeline *)

Module JS.

(** *** Errors and promises *)

(** What a [catch] clause can inspect of the value thrown: the message of
    an [Error], and, for a rejected HTTP exchange that got an answer, the
    [response] the client attaches to it. *)
Record HttpErrorResponse := {
  http_status : Z;
  data_error : option string;      (* response.data.error *)
  data_json : string               (* JSON.stringify(response.data) *)
}.

Record Error := {
  message : string;
  response : option HttpErrorResponse
}.

(** [new Error(msg)] *)
Definition error (msg : string) : Error := {| message := msg; response := None |}.

Inductive Result (A : Type) : Type :=
| Ok (a : A)
| Throw (e : Error).
Arguments Ok {A} a.
Arguments Throw {A} e.

Definition bind {A B} (m : Result A) (k : A -> Result B) : Result B :=
  match m with
  | Ok a => k a
  | Throw e => Throw e
  end.

(** [try { body } catch (error) { handler(error) }] *)
Definition try_catch {A} (body : Result A) (handler : Error -> Result A) : Result A :=
  match body with
  | Ok a => Ok a
  | Throw e => handler e
  end.

(** *** Characters and strings *)

Definition code (c : ascii) : N := N_of_ascii c.

Definition is_digit (c : ascii) : bool := (48 <=? code c)%N && (code c <=? 57)%N.

(** [\s], and the characters [trim] removes: TAB, LF, VT, FF, CR, SPACE. *)
Definition is_space (c : ascii) : bool :=
  ((9 <=? code c)%N && (code c <=? 13)%N) || (code c =? 32)%N.

Definition lower_char (c : ascii) : ascii :=
  if (65 <=? code c)%N && (code c <=? 90)%N then ascii_of_N (code c + 32) else c.

Definition upper_char (c : ascii) : ascii :=
  if (97 <=? code c)%N && (code c <=? 122)%N then ascii_of_N (code c - 32) else c.

Fixpoint map_string (f : ascii -> ascii) (s : string) : string :=
  match s with
  | EmptyString => EmptyString
  | String c s' => String (f c) (map_string f s')
  end.

Definition toLowerCase : string -> string := map_string lower_char.
Definition toUpperCase : string -> string := map_string upper_char.

(** [strip_prefix p s = Some r] when [s = p ++ r]. *)
Fixpoint strip_prefix (p s : string) : option string :=
  match p, s with
  | EmptyString, _ => Some s
  | String a p', String b s' => if Ascii.eqb a b then strip_prefix p' s' else None
  | String _ _, EmptyString => None
  end.

Definition startsWith (s p : string) : bool :=
  match strip_prefix p s with Some _ => true | None => false end.

(** [s.includes(term)] *)
Fixpoint includes (s term : string) : bool :=
  startsWith s term
  || match s with
     | EmptyString => false
     | String _ s' => includes s' term
     end.

(** [s.replace(pat, rep)] with a string pattern: the first occurrence only. *)
Fixpoint replace (s pat rep : string) : string :=
  match strip_prefix pat s with
  | Some rest => rep ++ rest
  | None =>
      match s with
      | EmptyString => EmptyString
      | String c s' => String c (replace s' pat rep)
      end
  end.

Fixpoint trimStart (s : string) : string :=
  match s with
  | String c s' => if is_space c then trimStart s' else s
  | EmptyString => EmptyString
  end.

Fixpoint trimEnd (s : string) : string :=
  match s with
  | EmptyString => EmptyString
  | String c s' =>
      match trimEnd s' with
      | EmptyString => if is_space c then EmptyString else String c EmptyString
      | t => String c t
      end
  end.

Definition trim (s : string) : string := trimEnd (trimStart s).

Fixpoint take_while (p : ascii -> bool) (s : string) : string :=
  match s with
  | String c s' => if p c then String c (take_while p s') else EmptyString
  | EmptyString => EmptyString
  end.

Fixpoint drop_while (p : ascii -> bool) (s : string) : string :=
  match s with
  | String c s' => if p c then drop_while p s' else s
  | EmptyString => EmptyString
  end.

(** Truthiness of the values the pipeline tests with [if (x)] / [x || y]. *)
Definition truthy_string (s : string) : bool :=
  match s with EmptyString => false | String _ _ => true end.

Definition truthy_opt_string (s : option string) : bool :=
  match s with Some s => truthy_string s | None => false end.

Definition truthy_Z (z : Z) : bool := negb (z =? 0).

(** [`${n}`] for an integer. *)
Definition string_of_Z (z : Z) : string := NilZero.string_of_int (Z.to_int z).

(** *** Numbers *)

(** The double nearest to an integer (round to nearest, ties to even). *)
Definition Number_of_Z (z : Z) : float :=
  SF2Prim (binary_normalize prec emax z 0 false).

(** The double nearest to [m / 10^k], for [m >= 0]: what reading the
    decimal literal [m] with [k] fractional digits yields. *)
Definition Number_of_decimal (m : Z) (k : nat) : float :=
  match m with
  | Zpos p =>
      SF2Prim (SFdiv prec emax (S754_finite false p 0)
                               (S754_finite false (Z.to_pos (10 ^ Z.of_nat k)) 0))
  | _ => 0%float
  end.

Fixpoint digits_value (acc : Z) (s : string) : Z :=
  match s with
  | String c s' => digits_value (10 * acc + (Z.of_N (code c) - 48)) s'
  | EmptyString => acc
  end.

(** [parseInt(s)] on a capture of [\d+]. *)
Definition parseInt (s : string) : float :=
  match take_while is_digit s with
  | EmptyString => nan
  | ds => Number_of_Z (digits_value 0 ds)
  end.

(** [parseFloat(s)] on a capture of [[\d.]+]: the longest prefix of the
    shape digits, optionally a dot and more digits; [NaN] when that prefix
    holds no digit.  (Sign, exponent and white space cannot occur in such
    a capture.) *)
Definition parseFloat (s : string) : float :=
  let int_part := take_while is_digit s in
  let frac_part :=
    match drop_while is_digit s with
    | String "." r => take_while is_digit r
    | _ => EmptyString
    end in
  match int_part ++ frac_part with
  | EmptyString => nan
  | ds =>
      match frac_part with
      | EmptyString => Number_of_Z (digits_value 0 ds)
      | _ => Number_of_decimal (digits_value 0 ds) (String.length frac_part)
      end
  end.

(** [floor (a * 2^e + 1/2)]: the integer nearest to [a * 2^e], ties
    towards +infinity. *)
Definition round_half_up (a e : Z) : Z :=
  if 0 <=? e then a * 2 ^ e
  else (2 * a + 2 ^ (- e)) / 2 ^ (- e + 1).

(** [Math.round(x)]; a finite double is [(-1)^s * m * 2^e]. *)
Definition Math_round (x : float) : float :=
  match Prim2SF x with
  | S754_finite s m e =>
      let n := round_half_up (if s then Zneg m else Zpos m) e in
      if (n =? 0) && s then (-0)%float else Number_of_Z n
  | _ => x
  end.

(** [+x.toFixed(1)] for [|x| < 1e21]: the decimal with one fractional
    digit nearest to [x] (of two, the larger in magnitude), read back. *)
Definition toFixed1 (x : float) : float :=
  match Prim2SF x with
  | S754_finite s m e =>
      let r := Number_of_decimal (round_half_up (10 * Zpos m) e) 1 in
      if s then (- r)%float else r
  | S754_zero _ => 0%float
  | _ => x
  end.

(** *** The regular expressions of [parseHCPData]

    All four have the shape [/label:\s*(C+)/i] for a character class [C]. *)

(** The label, case-insensitively, at the start of [s]; the rest of [s]. *)
Fixpoint strip_prefix_ci (label s : string) : option string :=
  match label, s with
  | EmptyString, _ => Some s
  | String a l', String b s' =>
      if Ascii.eqb (lower_char a) (lower_char b) then strip_prefix_ci l' s' else None
  | String _ _, EmptyString => None
  end.

(** [\s*(C+)] anchored at the start of [r].  [\s*] is greedy and gives
    characters back one at a time when [C+] cannot start. *)
Fixpoint capture_after_spaces (cls : ascii -> bool) (r : string) : option string :=
  match r with
  | EmptyString => None
  | String c r' =>
      let here := if cls c then Some (take_while cls r) else None in
      if is_space c then
        match capture_after_spaces cls r' with
        | Some cap => Some cap
        | None => here
        end
      else here
  end.

(** [s.match(/label:\s*(C+)/i)]: group 1 of the leftmost match. *)
Fixpoint match_field (label : string) (cls : ascii -> bool) (s : string) : option string :=
  let at_start :=
    match strip_prefix_ci label s with
    | Some r => capture_after_spaces cls r
    | None => None
    end in
  match at_start with
  | Some cap => Some cap
  | None =>
      match s with
      | EmptyString => None
      | String _ s' => match_field label cls s'
      end
  end.

End JS.

Import JS.

Declare Scope js_scope.
Delimit Scope js_scope with js.
Notation "x <- m ;; k" := (JS.bind m (fun x => k))
  (at level 100, m at next level, right associativity) : js_scope.

(** ** Segmenter: server/lib/meditagEngine.ts *)

Module Meditag.

Record HCPData := {
  specialty : option string;
  prescription_rate : option float;
  practice_size : option string;
  years_experience : option float
}.

Record MediTagResult := {
  segment : string;
  confidence : float;
  (** [characteristics]: the parsed fields spread, plus [segmentReason]. *)
  characteristics : HCPData;
  segmentReason : string
}.

Definition not_comma_newline (c : ascii) : bool :=
  negb (Ascii.eqb c ",") && negb (code c =? 10)%N.

Definition digit_or_dot (c : ascii) : bool := is_digit c || Ascii.eqb c ".".

Definition parseHCPData (hcpText : string) : HCPData :=
  {| specialty :=
       match match_field "specialty:" not_comma_newline hcpText with
       | Some g => Some (trim g)
       | None =>
           if includes hcpText "Cardiologist" then Some "Cardiology"
           else if includes hcpText "Oncologist" then Some "Oncology"
           else if includes hcpText "Neurologist" then Some "Neurology"
           else None
       end;
     prescription_rate :=
       option_map parseFloat (match_field "prescription_rate:" digit_or_dot hcpText);
     practice_size :=
       option_map trim (match_field "practice_size:" not_comma_newline hcpText);
     years_experience :=
       option_map parseInt (match_field "years_experience:" is_digit hcpText) |}.

Definition str_eq (a : option string) (b : string) : bool :=
  match a with Some a => String.eqb a b | None => false end.

(** [a > b] on numbers. *)
Definition gt (a b : float) : bool := PrimFloat.ltb b a.
Definition lt (a b : float) : bool := PrimFloat.ltb a b.

(** Lines 87-118: the segment and confidence before the specialty
    adjustment. *)
Definition segmentBase (hcpData : HCPData) : string * float :=
  match prescription_rate hcpData with
  | Some rate =>
      if gt rate 0.7 then ("Early Adopter", 0.85%float)
      else if gt rate 0.4 then
        match years_experience hcpData with
        | Some years =>
            if gt years 10 then ("Evidence Driven", 0.9%float)
            else ("Mainstream", 0.75%float)
        | None => ("Mainstream", 0.75%float)
        end
      else ("Conservative", 0.8%float)
  | None =>
      match years_experience hcpData with
      | Some years =>
          if gt years 15 then ("Evidence Driven", 0.7%float)
          else if lt years 5 then ("Early Adopter", 0.6%float)
          else ("General", 0.7%float)
      | None => ("General", 0.7%float)
      end
  end.

(** Lines 120-133: the specialty-specific adjustment of the confidence. *)
Definition specialtyAdjust (hcpData : HCPData) (segment : string) (confidence : float) : float :=
  if str_eq (specialty hcpData) "Oncology" then
    if negb (String.eqb segment "Evidence Driven") then (confidence - 0.1)%float
    else (confidence + 0.05)%float
  else if str_eq (specialty hcpData) "Cardiology" then
    if str_eq (practice_size hcpData) "large" && negb (String.eqb segment "Mainstream")
    then (confidence - 0.1)%float
    else confidence
  else confidence.

Definition getSegmentReason (segment : string) (hcpData : HCPData) : string :=
  if String.eqb segment "Early Adopter" then
    "High prescription rate and/or recent entry to practice"
  else if String.eqb segment "Evidence Driven" then
    "Significant experience and moderate prescription patterns"
  else if String.eqb segment "Mainstream" then
    "Average prescription rate with balanced approach"
  else if String.eqb segment "Conservative" then
    "Lower prescription rate, likely preferring established treatments"
  else "Insufficient data for detailed segmentation".

Definition segmentHCP (hcpData : HCPData) : MediTagResult :=
  let '(segment, confidence) := segmentBase hcpData in
  {| segment := segment;
     confidence := specialtyAdjust hcpData segment confidence;
     characteristics := hcpData;
     segmentReason := getSegmentReason segment hcpData |}.

Definition analyzeHCP (hcpText : string) : Result MediTagResult :=
  try_catch
    (let hcpData := parseHCPData hcpText in
     Ok (segmentHCP hcpData))
    (fun _ => Throw (error "Failed to analyze HCP data. Please try again later.")).

End Meditag.

(** ** LLM text service: server/lib/openai.ts *)

Module OpenAI.

(** What [openai.chat.completions.create] followed by [JSON.parse] of the
    reply can do: reject, fail to parse, or yield the structured object. *)
Inductive LLMReply (A : Type) : Type :=
| CallFailed (e : Error)
| Unparsable
| Json (a : A).
Arguments CallFailed {A} e.
Arguments Unparsable {A}.
Arguments Json {A} a.

Record ScriptGenerationResult := {
  script : string;
  duration : Z;
  targetAudience : string
}.

Record ComplianceDetails := {
  passed : bool;
  score : float;
  issues : option (list string);
  recommendations : option (list string)
}.

(** The service, as a function of the user message it is sent (the system
    message is fixed up to one sentence that depends on the same document),
    and the document store behind [fs] (lines 27-52 of openai.ts: the
    content of a .txt upload, a received-marker for .pdf/.docx, the empty
    string when the file is missing or unreadable; it never throws). *)
Record Service := {
  chat_script : string -> LLMReply ScriptGenerationResult;
  chat_compliance : string -> LLMReply ComplianceDetails;
  read_document : string -> string
}.

Definition nl : string := String (ascii_of_nat 10) EmptyString.

Definition parsed {A} (r : LLMReply A) : Result A :=
  match r with
  | CallFailed e => Throw e
  | Unparsable => Throw (error "SyntaxError: Unexpected token in JSON")
  | Json a => Ok a
  end.

(** The user message of [generateScript] (lines 24-52 and 73-76). *)
Definition scriptRequest (svc : Service) (hcpText prompt : string)
    (documentPath : option string) : string :=
  let documentContent :=
    match documentPath with
    | Some p => if truthy_string p then read_document svc p else ""
    | None => ""
    end in
  "HCP Information: " ++ hcpText ++ nl ++ nl ++ "Prompt: " ++ prompt
  ++ (if truthy_string documentContent
      then nl ++ nl ++ "Document Content: " ++ documentContent else "").

(** The one error [generateScript] lets out. *)
Definition scriptError : Error :=
  error "Failed to generate script. Please try again later.".

Definition generateScript (svc : Service) (hcpText prompt : string)
    (documentPath : option string) : Result ScriptGenerationResult :=
  try_catch
    (let content := scriptRequest svc hcpText prompt documentPath in
     (result <- parsed (chat_script svc content) ;;
      Ok {| script := script result;
            duration := duration result;
            targetAudience := targetAudience result |})%js)
    (fun _ => Throw scriptError).

Definition checkCompliance (svc : Service) (script : string) : Result ComplianceDetails :=
  try_catch
    (let content := "Evaluate this script for PMDA compliance:" ++ nl ++ nl ++ script in
     (result <- parsed (chat_compliance svc content) ;;
      Ok {| passed := passed result;
            score := score result;
            issues := issues result;
            recommendations := recommendations result |})%js)
    (fun _ => Throw (error "Failed to check compliance. Please try again later.")).

End OpenAI.

(** ** Compliance Evaluator: server/lib/complianceChecker.ts *)

Module Compliance.

Inductive Status := Passed | Review | Failed.

Definition status_eqb (a b : Status) : bool :=
  match a, b with
  | Passed, Passed | Review, Review | Failed, Failed => true
  | _, _ => false
  end.

Record ComplianceResult := {
  passed : bool;
  status : Status;
  details : OpenAI.ComplianceDetails
}.

Definition evidenceTerms : list string :=
  [ "evidence-based"; "clinical trial"; "study shows"; "research indicates";
    "data suggest"; "demonstrated efficacy"; "proven"; "clinically validated";
    "statistically significant"; "peer-reviewed"; "meta-analysis";
    "randomized controlled trial"; "rct" ].

Definition nonCompliantTerms : list string :=
  [ "best in class"; "superior to"; "better than"; "most effective";
    "guaranteed"; "miracle"; "cure"; "no side effects"; "risk free";
    "immediate results"; "complete relief"; "revolutionary"; "breakthrough" ].

Definition containsEvidenceBasedLanguage (script : string) : bool :=
  let lowerScript := toLowerCase script in
  existsb (fun term => includes lowerScript term) evidenceTerms.

(** Returns the [passed] field of the object the source builds. *)
Definition simpleComplianceCheck (script : string) : bool :=
  let lowerScript := toLowerCase script in
  let hasEvidenceBasedLanguage := containsEvidenceBasedLanguage script in
  let hasNonCompliantLanguage :=
    existsb (fun term => includes lowerScript term) nonCompliantTerms in
  hasEvidenceBasedLanguage && negb hasNonCompliantLanguage.

(** [a >= b] on numbers. *)
Definition ge (a b : float) : bool := PrimFloat.leb b a.

Definition evaluateCompliance (svc : OpenAI.Service) (script : string)
    : Result ComplianceResult :=
  try_catch
    (complianceDetails <- OpenAI.checkCompliance svc script ;;
     let status :=
       if OpenAI.passed complianceDetails then Passed
       else if ge (OpenAI.score complianceDetails) 60 then Review
       else Failed in
     let evidenceBasedCheck := containsEvidenceBasedLanguage script in
     let status :=
       if evidenceBasedCheck && status_eqb status Failed then Review else status in
     Ok {| passed := status_eqb status Passed;
           status := status;
           details := complianceDetails |})%js
    (fun _ =>
       let fallbackResult := simpleComplianceCheck script in
       Ok {| passed := fallbackResult;
             status := if fallbackResult then Passed else Review;
             details :=
               {| OpenAI.passed := fallbackResult;
                  OpenAI.score := if fallbackResult then 80%float else 50%float;
                  OpenAI.issues :=
                    Some (if fallbackResult then []
                          else ["Compliance check error - limited validation performed"]);
                  OpenAI.recommendations :=
                    Some (if fallbackResult then []
                          else ["Include explicit evidence-based language"]) |} |}).

(** A marker is present: some term of the vocabulary is a substring of
    the lower-cased script. *)
Definition has_term (terms : list string) (script : string) : Prop :=
  exists term a b,
    In term terms /\ toLowerCase script = (a ++ term ++ b)%string.

End Compliance.

(** ** Video Synthesizer: server/lib/heygenApi.ts *)

Module HeyGen.

Record HeyGenVideoGenerationResult := {
  videoUrl : string;
  thumbnailUrl : string;
  videoId : string
}.

(** An HTTP exchange either rejects (transport error, non-2xx status) or
    resolves with a body. *)
Definition Http (A : Type) : Type := Result A.

(** [response.data] of POST /v1/video_speech.generate, as far as read. *)
Record V1Body := {
  v1_status : string;
  v1_task_id : option string;     (* data.data.task_id *)
  v1_message : option string
}.

(** The provider and the process environment.  Of each body only the
    fields the source reads are kept; an absent field, or an absent
    enclosing object, is [None]. *)
Record Provider := {
  HEYGEN_API_KEY : option string;
  (* POST /v2/video/generate (avatar_id, input_text): data.data.video_id *)
  post_v2_generate : string -> string -> Http (option string);
  (* POST /v1/video_speech.generate (avatar_id, input_text) *)
  post_v1_generate : string -> string -> Http V1Body;
  (* GET /v1/video_status.get?video_id=: data.data.video_url *)
  get_video_status : string -> Http (option string);
  (* GET /v1/task_status.get?task_id=: data.data.result.url *)
  get_task_status : string -> Http (option string)
}.

Definition placeholderVideoUrl : string :=
  "https://assets.mixkit.co/videos/preview/mixkit-medical-team-in-a-hospital-room-31695-large.mp4".
Definition placeholderThumbnailUrl : string :=
  "https://assets.mixkit.co/videos/preview/mixkit-medical-team-in-a-hospital-room-31695-large.jpg".

Definition await {A} (r : Http A) : Result A := r.

Definition avatarMap : list (string * string) :=
  [ ("Cardiologist", "Anna-headshot-20240205");
    ("Oncologist", "Dave-headshot-20240205");
    ("Neurologist", "Angela-inTshirt-20220820");
    ("Pediatrician", "Ben-office-20220820");
    ("Dermatologist", "Mark-office-20220820") ].

Fixpoint lookup (m : list (string * string)) (k : string) : option string :=
  match m with
  | [] => None
  | (k', v) :: m' => if String.eqb k' k then Some v else lookup m' k
  end.

Definition opt_string_eqb (a : option string) (b : string) : bool :=
  match a with Some a => String.eqb a b | None => false end.

Definition getAvatarForHCP (targetHCP : string) : string :=
  match lookup avatarMap targetHCP with
  | Some a => if truthy_string a then a else "Angela-inTshirt-20220820"
  | None => "Angela-inTshirt-20220820"
  end.

Definition generateThumbnailUrl (videoUrl : string) : string :=
  replace videoUrl ".mp4" ".jpg".

(** Returns the [url] field of the object the source builds. *)
Definition checkVideoStatus (p : Provider) (videoId apiKey : string) : Result string :=
  try_catch
    (try_catch
       (statusResponse <- await (get_video_status p videoId) ;;
        if truthy_opt_string statusResponse
        then Ok (match statusResponse with Some u => u | None => "" end)
        else Throw (error "V1 video_status did not return a video URL"))%js
       (fun _ =>
          (taskResponse <- await (get_task_status p videoId) ;;
           if truthy_opt_string taskResponse
           then Ok (match taskResponse with Some u => u | None => "" end)
           else Throw (error "V1 task_status did not return a video URL"))%js))
    (fun _ => Ok placeholderVideoUrl).

(** Lines 30-109 of [generateVideo]: the v2 endpoint first, the v1
    endpoint when that fails; the job identifier. *)
Definition submitVideo (p : Provider) (avatarId script : string) : Result string :=
  try_catch
    (response <- await (post_v2_generate p avatarId script) ;;
     if truthy_opt_string response
     then Ok (match response with Some i => i | None => "" end)
     else Throw (error "V2 API did not return a video ID"))%js
    (fun _ =>
       (response <- await (post_v1_generate p avatarId script) ;;
        if String.eqb (v1_status response) "success"
           && truthy_opt_string (v1_task_id response)
        then Ok (match v1_task_id response with Some i => i | None => "" end)
        else Throw (error ("HeyGen v1 API error: "
                           ++ (if truthy_opt_string (v1_message response)
                               then match v1_message response with
                                    | Some m => m | None => "" end
                               else "Unknown error"))))%js).

Definition placeholderResult : HeyGenVideoGenerationResult :=
  {| videoUrl := placeholderVideoUrl;
     thumbnailUrl := placeholderThumbnailUrl;
     videoId := "simulated-video-id" |}.

Definition generateVideo (p : Provider) (script targetHCP : string)
    : Result HeyGenVideoGenerationResult :=
  try_catch
    (match HEYGEN_API_KEY p with
     | Some apiKey =>
         if truthy_string apiKey then
           let avatarId := getAvatarForHCP targetHCP in
           (videoId <- submitVideo p avatarId script ;;
            videoData <- checkVideoStatus p videoId apiKey ;;
            Ok {| videoUrl := videoData;
                  thumbnailUrl := generateThumbnailUrl videoData;
                  videoId := videoId |})%js
         else Throw (error "HEYGEN_API_KEY is not configured")
     | None => Throw (error "HEYGEN_API_KEY is not configured")
     end)
    (fun _ => Ok placeholderResult).

(** A status endpoint answered with a usable URL. *)
Definition has_url (r : Http (option string)) : bool :=
  match r with
  | Ok u => truthy_opt_string u
  | Throw _ => false
  end.

End HeyGen.

(** ** Video Synthesizer, second provider: server/lib/veoApi.ts *)

Module Veo.

Record VeoVideoGenerationResult := {
  videoUrl : string;
  thumbnailUrl : string;
  videoId : string
}.

(** POST https://veo2api.com/api/ (prompt, speaker) rejects with an error
    (carrying the provider's answer when there was one) or resolves with a
    body, of which [response.data.id] is read. *)
Record Body := {
  body_id : option string;         (* response.data.id *)
  body_json : string               (* JSON.stringify(response.data) *)
}.

Record Provider := {
  VEO_API_KEY : option string;
  post_generate : string -> string -> Result Body
}.

Definition speakerMap : list (string * string) :=
  [ ("Cardiologist", "professional_male_1");
    ("Oncologist", "professional_female_1");
    ("Neurologist", "professional_male_2");
    ("Pediatrician", "friendly_female_1");
    ("Dermatologist", "professional_female_2") ].

Definition getSpeakerForHCP (targetHCP : string) : string :=
  match HeyGen.lookup speakerMap targetHCP with
  | Some a => if truthy_string a then a else "professional_male_1"
  | None => "professional_male_1"
  end.

(** The polling loop is commented out in the source: after a fixed delay
    the promise resolves with the placeholder. *)
Definition pollForVideoCompletion (videoId apiKey : string) : Result string :=
  Ok HeyGen.placeholderVideoUrl.

Definition generateThumbnailUrl (videoUrl : string) : string :=
  replace videoUrl ".mp4" ".jpg".

Definition placeholderResult : VeoVideoGenerationResult :=
  {| videoUrl := HeyGen.placeholderVideoUrl;
     thumbnailUrl := HeyGen.placeholderThumbnailUrl;
     videoId := "simulated-video-id" |}.

Definition generateVideo (p : Provider) (script targetHCP : string)
    : Result VeoVideoGenerationResult :=
  try_catch
    (match VEO_API_KEY p with
     | Some apiKey =>
         if truthy_string apiKey then
           let speaker := getSpeakerForHCP targetHCP in
           try_catch
             (response <- post_generate p script speaker ;;
              if truthy_opt_string (body_id response) then
                let videoId := match body_id response with Some i => i | None => "" end in
                videoData <- pollForVideoCompletion videoId apiKey ;;
                Ok {| videoUrl := videoData;
                      thumbnailUrl := generateThumbnailUrl videoData;
                      videoId := videoId |}
              else Throw (error ("VEO API error: " ++ body_json response)))%js
             (fun axiosError =>
                match response axiosError with
                | Some r =>
                    if (http_status r =? 402)
                       && HeyGen.opt_string_eqb (data_error r) "Insufficient credits"
                    then Throw (error "VEO API Error: Insufficient credits. Please top up your account.")
                    else Throw (error ("VEO API Error: " ++ data_json r))
                | None =>
                    Throw (error ("VEO API Error: "
                                  ++ (if truthy_string (message axiosError)
                                      then message axiosError
                                      else "Unknown error occurred")))
                end)
         else Throw (error "VEO_API_KEY is not configured")
     | None => Throw (error "VEO_API_KEY is not configured")
     end)
    (fun _ => Ok placeholderResult).

End Veo.

(** ** Persistence: server/storage.ts, tables of shared/schema.ts *)

Module Storage.

(** Rows of [uploads] and [videos] (shared/schema.ts); [created_at] is
    filled by the database and read by nothing in the pipeline. *)
Record Upload := {
  upload_id_of : Z;                (* id *)
  user_id : string;
  hcp_text : string;
  document_path : option string
}.

Record InsertUpload := {
  ins_user_id : string;
  ins_hcp_text : string;
  ins_document_path : option string
}.

Record InsertVideo := {
  title : string;
  upload_id : Z;
  prompt : string;
  target_hcp : string;
  video_url : string;
  thumbnail_url : option string;
  duration : Z;
  compliance_status : string;
  meditag_segment : option string;
  generated_script : option string;
  compliance_details : option OpenAI.ComplianceDetails
}.

Record Video := {
  video_id_of : Z;                 (* id *)
  row : InsertVideo
}.

(** The two tables, newest row first, and the two [serial] sequences. *)
Record Store := {
  uploads : list Upload;
  videos : list Video;
  uploads_seq : Z;
  videos_seq : Z
}.

Definition empty : Store :=
  {| uploads := []; videos := []; uploads_seq := 0; videos_seq := 0 |}.

(** A computation of the service: it may read and write the store, and
    resolve or reject.  Writes made before a rejection stay. *)
Definition M (A : Type) : Type := Store -> Result A * Store.

Definition ret {A} (a : A) : M A := fun st => (Ok a, st).
Definition throw {A} (e : Error) : M A := fun st => (Throw e, st).
Definition lift {A} (r : Result A) : M A := fun st => (r, st).

Definition bind {A B} (m : M A) (k : A -> M B) : M B :=
  fun st =>
    match m st with
    | (Ok a, st') => k a st'
    | (Throw e, st') => (Throw e, st')
    end.

Definition try_catch {A} (body : M A) (handler : Error -> M A) : M A :=
  fun st =>
    match body st with
    | (Ok a, st') => (Ok a, st')
    | (Throw e, st') => handler e st'
    end.

(** Modelled from the spec: server/storage.ts is not part of the sources.
    [createUpload(fields) -> Upload] stores the fields under the next value
    of the [serial] primary key and returns the row. *)
Definition createUpload (u : InsertUpload) : M Upload :=
  fun st =>
    let r := {| upload_id_of := uploads_seq st + 1;
                user_id := ins_user_id u;
                hcp_text := ins_hcp_text u;
                document_path := ins_document_path u |} in
    (Ok r, {| uploads := r :: uploads st;
              videos := videos st;
              uploads_seq := uploads_seq st + 1;
              videos_seq := videos_seq st |}).

(** Modelled from the spec: [getUpload(id) -> Upload | NotFound], the
    service reads the absent row as [undefined]. *)
Definition getUpload (id : Z) : M (option Upload) :=
  fun st => (Ok (find (fun u => upload_id_of u =? id) (uploads st)), st).

(** Modelled from the spec: [createVideo(fields) -> Video]. *)
Definition createVideo (v : InsertVideo) : M Video :=
  fun st =>
    let r := {| video_id_of := videos_seq st + 1; row := v |} in
    (Ok r, {| uploads := uploads st;
              videos := r :: videos st;
              uploads_seq := uploads_seq st;
              videos_seq := videos_seq st + 1 |}).

(** Modelled from the spec: [getVideo(id) -> Video | NotFound]. *)
Definition getVideo (id : Z) : M (option Video) :=
  fun st => (Ok (find (fun v => video_id_of v =? id) (videos st)), st).

(** Modelled from the spec: [listVideos(limit?) -> [Video]], newest first. *)
Definition listVideos (limit : option nat) : M (list Video) :=
  fun st =>
    (Ok (match limit with Some n => firstn n (videos st) | None => videos st end), st).

(** Modelled from the spec: [deleteVideo(id) -> bool], false when no row
    has that id. *)
Definition deleteVideo (id : Z) : M bool :=
  fun st =>
    (Ok (existsb (fun v => video_id_of v =? id) (videos st)),
     {| uploads := uploads st;
        videos := filter (fun v => negb (video_id_of v =? id)) (videos st);
        uploads_seq := uploads_seq st;
        videos_seq := videos_seq st |}).

End Storage.

Declare Scope store_scope.
Delimit Scope store_scope with store.
Notation "x <- m ;; k" := (Storage.bind m (fun x => k))
  (at level 100, m at next level, right associativity) : store_scope.

(** ** Pipeline Orchestrator: server/services/videoService.ts *)

Module VideoService.

Import Storage.

(** The external collaborators of one run. *)
Record World := {
  openai : OpenAI.Service;
  heygen : HeyGen.Provider
}.

Definition createUpload (uploadData : InsertUpload) : M Upload :=
  Storage.createUpload uploadData.

(** Skips the matches of [/create a|video for|about/g], left to right. *)
Fixpoint strip_fillers (skip : nat) (s : string) : string :=
  match s with
  | EmptyString => EmptyString
  | String c s' =>
      match skip with
      | S k => strip_fillers k s'
      | O =>
          if startsWith s "create a" then strip_fillers 7 s'
          else if startsWith s "video for" then strip_fillers 8 s'
          else if startsWith s "about" then strip_fillers 4 s'
          else String c (strip_fillers 0 s')
      end
  end.

(** [s.split(' ')] *)
Fixpoint split_space (s : string) : list string :=
  match s with
  | EmptyString => [EmptyString]
  | String c s' =>
      if Ascii.eqb c " " then EmptyString :: split_space s'
      else match split_space s' with
           | w :: ws => String c w :: ws
           | [] => [String c EmptyString]
           end
  end.

Definition capitalize (word : string) : string :=
  match word with
  | String c w => String (upper_char c) w
  | EmptyString => EmptyString
  end.

Definition getVideoTitle (prompt targetHCP : string) : string :=
  let keywords :=
    map capitalize
      (firstn 3
         (filter (fun word => (3 <? String.length word)%nat)
            (split_space (strip_fillers 0 (toLowerCase prompt))))) in
  match keywords with
  | [] => targetHCP ++ " Information Video"
  | _ => targetHCP ++ " " ++ String.concat " " keywords
  end.

Definition defaultHcpText : string :=
  "Cardiologist with 10 years of experience, working in a large hospital setting".

Definition truthy_id (id : option Z) : bool :=
  match id with Some z => truthy_Z z | None => false end.

(** Lines 27-65 of [createVideo]: the text to use, the upload the video
    will point to, and the document of that upload. *)
Definition resolveInput (uploadId : option Z) (hcpText : option string)
    : M (string * option Z * option string) :=
  (if truthy_id uploadId then
     let id := match uploadId with Some z => z | None => 0 end in
     upload <- Storage.getUpload id ;;
     match upload with
     | None => throw (error ("Upload with ID " ++ string_of_Z id ++ " not found"))
     | Some upload => ret (hcp_text upload, uploadId, document_path upload)
     end
   else if truthy_opt_string hcpText then
     let hcpText := match hcpText with Some t => t | None => "" end in
     if truthy_string (trim hcpText) then
       upload <- Storage.createUpload
                   {| ins_user_id := "anonymous";
                      ins_hcp_text := hcpText;
                      ins_document_path := None |} ;;
       ret (hcpText, Some (upload_id_of upload), None)
     else
       ret (defaultHcpText, uploadId, None)
   else
     upload <- Storage.createUpload
                 {| ins_user_id := "anonymous";
                    ins_hcp_text := defaultHcpText;
                    ins_document_path := None |} ;;
     ret (defaultHcpText, Some (upload_id_of upload), None))%store.

(** Lines 67-95 of [createVideo]. *)
Definition runPipeline (w : World) (prompt : string)
    (input : string * option Z * option string) : M Video :=
  let '(finalHcpText, uploadIdToUse, documentPath) := input in
  (meditagResult <- lift (Meditag.analyzeHCP finalHcpText) ;;
   scriptResult <- lift (OpenAI.generateScript (openai w) finalHcpText prompt documentPath) ;;
   complianceResult <-
     lift (Compliance.evaluateCompliance (openai w) (OpenAI.script scriptResult)) ;;
   videoResult <-
     lift (HeyGen.generateVideo (heygen w) (OpenAI.script scriptResult)
                                (OpenAI.targetAudience scriptResult)) ;;
   let insertVideo :=
     {| title := getVideoTitle prompt (OpenAI.targetAudience scriptResult);
        upload_id := if truthy_id uploadIdToUse
                     then match uploadIdToUse with Some z => z | None => 0 end
                     else 0;
        prompt := prompt;
        target_hcp := OpenAI.targetAudience scriptResult;
        video_url := HeyGen.videoUrl videoResult;
        thumbnail_url := Some (HeyGen.thumbnailUrl videoResult);
        duration := OpenAI.duration scriptResult;
        compliance_status :=
          match Compliance.status complianceResult with
          | Compliance.Passed => "Passed"
          | Compliance.Review => "Review"
          | Compliance.Failed => "Failed"
          end;
        meditag_segment := Some (Meditag.segment meditagResult);
        generated_script := Some (OpenAI.script scriptResult);
        compliance_details := Some (Compliance.details complianceResult) |} in
   Storage.createVideo insertVideo)%store.

Definition createVideo (w : World) (uploadId : option Z) (prompt : string)
    (hcpText : option string) : M Video :=
  try_catch
    (input <- resolveInput uploadId hcpText ;;
     runPipeline w prompt input)%store
    (fun error => throw error).

Definition getVideo (id : Z) : M Video :=
  (video <- Storage.getVideo id ;;
   match video with
   | None => throw (error ("Video with ID " ++ string_of_Z id ++ " not found"))
   | Some video => ret video
   end)%store.

Definition listVideos (limit : option nat) : M (list Video) :=
  Storage.listVideos limit.

Definition deleteVideo (id : Z) : M bool := Storage.deleteVideo id.

Record ComplianceStats := {
  compliance_rate : float;
  hcp_response_rate : Z;
  turnaround_time : string;
  videos_generated : Z;
  videos_passed : Z;
  avg_duration : float;
  adoption_gains : string
}.

Definition is_passed (v : Video) : bool :=
  String.eqb (compliance_status (row v)) "Passed".

(** The body of [getComplianceStats] after [listVideos()] has resolved. *)
Definition complianceStatsOf (videos : list Video) : ComplianceStats :=
  let totalVideos := Z.of_nat (List.length videos) in
  let passedVideos := Z.of_nat (List.length (filter is_passed videos)) in
  let compliance_rate :=
    if 0 <? totalVideos
    then Math_round (Number_of_Z passedVideos / Number_of_Z totalVideos * 100)%float
    else 95%float in
  let totalDuration :=
    fold_left (fun sum video => sum + duration (row video)) videos 0 in
  let avg_duration :=
    if 0 <? totalVideos
    then toFixed1 (Number_of_Z totalDuration / Number_of_Z totalVideos)%float
    else 8.5%float in
  {| compliance_rate := compliance_rate;
     hcp_response_rate := 20;
     turnaround_time := "7-15 days";
     videos_generated := if truthy_Z totalVideos then totalVideos else 127;
     videos_passed := if truthy_Z passedVideos then passedVideos else 121;
     avg_duration := avg_duration;
     adoption_gains := "$380K" |}.

(** The aggregates of a table: rows with status Passed, summed durations. *)
Definition passedCount (rows : list Video) : Z :=
  Z.of_nat (List.length (filter is_passed rows)).

Definition totalDuration (rows : list Video) : Z :=
  fold_left (fun sum video => sum + duration (row video)) rows 0.

Definition getComplianceStats : M ComplianceStats :=
  (videos <- Storage.listVideos None ;;
   ret (complianceStatsOf videos))%store.

End VideoService.

(** ** HTTP boundary: server/controllers/videoController.ts

    The handlers that take their input from the request body, and the
    delete handler.  [res.status(c).json(b)] is the [Response] returned. *)

Module Controller.

Import Storage.

(** The JSON bodies the handlers send. *)
Inductive Body : Type :=
| Message (message : string)
    (* { message } *)
| UploadCreated (id : Z) (message : string)
    (* { id, message } *)
| VideoGenerated (id : Z) (title status message : string)
    (* { id, title, status, message } *)
| ApiError (message : string).
    (* { message, api_error: true, id: null } *)

Record Response := {
  status : Z;
  json : Body
}.

(** [req.body] of POST /api/upload, as far as read. *)
Record UploadRequest := {
  req_hcp_text : option string;
  req_document_path : option string;
  req_user_id : option string
}.

(** [req.body] of POST /api/generate-video ([promptFormSchema]: [upload_id]
    is a number, here an integer). *)
Record GenerateRequest := {
  gen_upload_id : option Z;
  gen_prompt : option string;
  gen_hcp_text : option string
}.

(** [x || fallback] on an optional string. *)
Definition or_else (x : option string) (fallback : string) : string :=
  match x with
  | Some s => if truthy_string s then s else fallback
  | None => fallback
  end.

Definition uploadContent (req : UploadRequest) : M Response :=
  try_catch
    (if negb (truthy_opt_string (req_hcp_text req)) then
       ret {| status := 400; json := Message "HCP information is required" |}
     else
       upload <- VideoService.createUpload
                   {| ins_user_id := or_else (req_user_id req) "anonymous";
                      ins_hcp_text := or_else (req_hcp_text req) "";
                      ins_document_path :=
                        if truthy_opt_string (req_document_path req)
                        then req_document_path req else None |} ;;
       ret {| status := 201;
              json := UploadCreated (upload_id_of upload)
                        "HCP information processed successfully" |})%store
    (fun error =>
       ret {| status := 500; json := Message (message error) |}).

Definition generateVideo (w : VideoService.World) (req : GenerateRequest) : M Response :=
  try_catch
    (if negb (truthy_opt_string (gen_prompt req)) then
       ret {| status := 400;
              json := Message "Prompt is required for video generation" |}
     else
       video <- VideoService.createVideo w
                  (if VideoService.truthy_id (gen_upload_id req)
                   then gen_upload_id req else None)
                  (or_else (gen_prompt req) "")
                  (gen_hcp_text req) ;;
       ret {| status := 201;
              json := VideoGenerated (video_id_of video) (title (row video))
                        (compliance_status (row video))
                        "Video generated successfully" |})%store
    (fun error =>
       let errorMessage := message error in
       let isApiError :=
         truthy_string errorMessage
         && (includes errorMessage "VEO API error"
             || includes errorMessage "Insufficient credits") in
       if isApiError then
         ret {| status := 201; json := ApiError errorMessage |}
       else
         ret {| status := 500;
                json := Message (if truthy_string errorMessage then errorMessage
                                 else "Failed to generate video") |}).

(** The value of a digit in radix 16, and whether it is one in radix [r]. *)
Definition digit_value (c : ascii) : option Z :=
  let n := Z.of_N (code c) in
  if (48 <=? n) && (n <=? 57) then Some (n - 48)
  else if (97 <=? n) && (n <=? 102) then Some (n - 87)
  else if (65 <=? n) && (n <=? 70) then Some (n - 55)
  else None.

Definition is_radix_digit (radix : Z) (c : ascii) : bool :=
  match digit_value c with
  | Some d => d <? radix
  | None => false
  end.

Fixpoint radix_value (radix acc : Z) (s : string) : Z :=
  match s with
  | String c s' =>
      radix_value radix
        (radix * acc + match digit_value c with Some d => d | None => 0 end) s'
  | EmptyString => acc
  end.

(** [parseInt(s)] without a radix, on any string: leading white space, a
    sign, [0x] or [0X] for radix 16, then the longest run of digits; [NaN]
    when that run is empty. *)
Definition parseInt (s : string) : float :=
  let s := trimStart s in
  let '(negative, s) :=
    match s with
    | String "-" r => (true, r)
    | String "+" r => (false, r)
    | _ => (false, s)
    end in
  let '(radix, s) :=
    match s with
    | String "0" (String "x" r) => (16, r)
    | String "0" (String "X" r) => (16, r)
    | _ => (10, s)
    end in
  match take_while (is_radix_digit radix) s with
  | EmptyString => nan
  | ds =>
      let n := radix_value radix 0 ds in
      if n =? 0 then (if negative then (-0)%float else 0%float)
      else Number_of_Z (if negative then - n else n)
  end.



End Controller.

(** ** Measures on strings, used to state properties *)

Module Text.

(** How often a character occurs. *)
Fixpoint count_char (c : ascii) (s : string) : nat :=
  match s with
  | EmptyString => 0%nat
  | String x s' => ((if Ascii.eqb x c then 1 else 0) + count_char c s')%nat
  end.

Fixpoint last_char (s : string) : option ascii :=
  match s with
  | EmptyString => None
  | String x EmptyString => Some x
  | String _ s' => last_char s'
  end.

(** Every character satisfies [p]. *)
Fixpoint all_chars (p : ascii -> bool) (s : string) : bool :=
  match s with
  | EmptyString => true
  | String x s' => p x && all_chars p s'
  end.

(** The first character, if any, satisfies [p]. *)
Definition starts_with_char (p : ascii -> bool) (s : string) : bool :=
  match s with
  | EmptyString => false
  | String x _ => p x
  end.

End Text.

(** ** Concrete collaborators, used to run the pipeline on examples *)

Module Samples.

(** A service whose compliance model answers [passed: false, score: 40]. *)
Definition strict_service : OpenAI.Service :=
  {| OpenAI.chat_script := fun _ => OpenAI.Unparsable;
     OpenAI.chat_compliance := fun _ =>
       OpenAI.Json {| OpenAI.passed := false; OpenAI.score := 40;
                      OpenAI.issues := Some []; OpenAI.recommendations := Some [] |};
     OpenAI.read_document := fun _ => ""%string |}.

(** A service whose every call is rejected. *)
Definition offline_service : OpenAI.Service :=
  {| OpenAI.chat_script := fun _ => OpenAI.CallFailed (error "ECONNREFUSED");
     OpenAI.chat_compliance := fun _ => OpenAI.CallFailed (error "ECONNREFUSED");
     OpenAI.read_document := fun _ => ""%string |}.

(** A provider that accepts the job and then never reports a URL. *)
Definition stalled_provider : HeyGen.Provider :=
  {| HeyGen.HEYGEN_API_KEY := Some "key";
     HeyGen.post_v2_generate := fun _ _ => Ok (Some "job-1");
     HeyGen.post_v1_generate := fun _ _ => Throw (error "Request failed with status code 404");
     HeyGen.get_video_status := fun _ => Throw (error "Request failed with status code 404");
     HeyGen.get_task_status := fun _ => Ok None |}.

(** No API key in the environment. *)
Definition unconfigured_provider : HeyGen.Provider :=
  {| HeyGen.HEYGEN_API_KEY := None;
     HeyGen.post_v2_generate := fun _ _ => Throw (error "Network Error");
     HeyGen.post_v1_generate := fun _ _ => Throw (error "Network Error");
     HeyGen.get_video_status := fun _ => Throw (error "Network Error");
     HeyGen.get_task_status := fun _ => Throw (error "Network Error") |}.

(** A service that drafts a script and passes it. *)
Definition drafting_service : OpenAI.Service :=
  {| OpenAI.chat_script := fun _ =>
       OpenAI.Json {| OpenAI.script := "Proven in a clinical trial.";
                      OpenAI.duration := 8;
                      OpenAI.targetAudience := "Cardiologist" |};
     OpenAI.chat_compliance := fun _ =>
       OpenAI.Json {| OpenAI.passed := true; OpenAI.score := 90;
                      OpenAI.issues := Some []; OpenAI.recommendations := Some [] |};
     OpenAI.read_document := fun _ => "" |}.

Definition demo_world : VideoService.World :=
  {| VideoService.openai := drafting_service;
     VideoService.heygen := unconfigured_provider |}.


(** A stored row with the given status and duration. *)
Definition stored_video (id : Z) (status : string) (seconds : Z) : Storage.Video :=
  {| Storage.video_id_of := id;
     Storage.row :=
       {| Storage.title := "Cardiologist Heart Failure";
          Storage.upload_id := 1;
          Storage.prompt := "heart failure";
          Storage.target_hcp := "Cardiologist";
          Storage.video_url := HeyGen.placeholderVideoUrl;
          Storage.thumbnail_url := Some HeyGen.placeholderThumbnailUrl;
          Storage.duration := seconds;
          Storage.compliance_status := status;
          Storage.meditag_segment := Some "General";
          Storage.generated_script := None;
          Storage.compliance_details := None |} |}.

Definition three_videos : Storage.Store :=
  {| Storage.uploads := [];
     Storage.videos := [ stored_video 3 "Passed" 10; stored_video 2 "Failed" 8;
                         stored_video 1 "Passed" 7 ];
     Storage.uploads_seq := 1;
     Storage.videos_seq := 3 |}.

(** A provider whose v2 endpoint is gone, whose v1 endpoint accepts the job
    and whose task-status endpoint reports the finished video. *)
Definition legacy_provider : HeyGen.Provider :=
  {| HeyGen.HEYGEN_API_KEY := Some "key";
     HeyGen.post_v2_generate := fun _ _ => Throw (error "Request failed with status code 404");
     HeyGen.post_v1_generate := fun _ _ =>
       Ok {| HeyGen.v1_status := "success";
             HeyGen.v1_task_id := Some "task-7";
             HeyGen.v1_message := None |};
     HeyGen.get_video_status := fun _ => Ok None;
     HeyGen.get_task_status := fun _ => Ok (Some "https://cdn.example.com/out/task-7.mp4") |}.

Definition veo_provider : Veo.Provider :=
  {| Veo.VEO_API_KEY := Some "key";
     Veo.post_generate := fun _ _ =>
       Ok {| Veo.body_id := Some "veo-42"; Veo.body_json := "{}" |} |}.

(** A store with one upload that carries a document. *)
Definition one_upload : Storage.Store :=
  {| Storage.uploads :=
       [ {| Storage.upload_id_of := 4;
            Storage.user_id := "u-17";
            Storage.hcp_text := "Oncologist, prescription_rate: 0.5";
            Storage.document_path := Some "/uploads/1700000000000.txt" |} ];
     Storage.videos := [];
     Storage.uploads_seq := 4;
     Storage.videos_seq := 0 |}.

End Samples.

(** * Properties *)

Local Open Scope float_scope.

(** ** Worked examples *)

Section Examples.

Example parseFloat_examples :
  parseFloat "0.8" = 0.8 /\ parseFloat "1.2.3" = 1.2 /\ parseFloat ".5" = 0.5
  /\ parseFloat "5." = 5 /\ parseFloat "." = nan /\ parseInt "012" = 12.
Proof. repeat split. Qed.

Example rounding_examples :
  Math_round 2.5 = 3 /\ Math_round (-2.5) = (-2) /\ Math_round (29 / 200 * 100) = 14
  /\ toFixed1 8.25 = 8.3 /\ toFixed1 1.45 = 1.4 /\ toFixed1 (25 / 3) = 8.3.
Proof. repeat split. Qed.

Example parseHCPData_example :
  Meditag.parseHCPData "Cardiologist, prescription_rate: 0.8, years_experience: 12"
  = {| Meditag.specialty := Some "Cardiology"%string;
       Meditag.prescription_rate := Some 0.8;
       Meditag.practice_size := None;
       Meditag.years_experience := Some 12 |}.
Proof. reflexivity. Qed.

Example parseHCPData_backtracking :
  Meditag.specialty (Meditag.parseHCPData "Specialty:   , practice_size: Large")
  = Some ""%string
  /\ Meditag.practice_size (Meditag.parseHCPData "Specialty:   , practice_size: Large")
     = Some "Large"%string.
Proof. split; reflexivity. Qed.

Example getVideoTitle_example :
  VideoService.getVideoTitle "Create a video about a new heart failure drug" "Cardiologist"
  = "Cardiologist Video Heart Failure"%string.
Proof. reflexivity. Qed.

(** The end-to-end run of the specification: one Video, segment Early
    Adopter, a status among the three, a video URL. *)
Example createVideo_example :
  exists v st,
    VideoService.createVideo Samples.demo_world None
      "Create a video about a new heart failure drug"
      (Some "Cardiologist, prescription_rate: 0.8, years_experience: 12"%string)
      Storage.empty
    = (Ok v, st)
    /\ Storage.videos st = [v]
    /\ Storage.upload_id (Storage.row v) = 1%Z
    /\ Storage.meditag_segment (Storage.row v) = Some "Early Adopter"%string
    /\ Storage.compliance_status (Storage.row v) = "Passed"%string
    /\ Storage.video_url (Storage.row v) = HeyGen.placeholderVideoUrl.
Proof. eexists. eexists. repeat split. Qed.

End Examples.

(** ** Facts about the JavaScript built-ins *)

Section FloatOrder.

(** Comparisons of [spec_float]s are lexicographic on sign, exponent
    and mantissa: split on every integer comparison in the goal. *)
Ltac compare_cases :=
  rewrite ?Pos.compare_cont_spec; simpl;
  repeat match goal with
    | |- context [(?x ?= ?y)%Z] => destruct (Z.compare_spec x y)
    | |- context [(?x ?= ?y)%positive] => destruct (Pos.compare_spec x y)
    end;
  simpl; try congruence; subst; lia.

(** [x <= y] excludes [y < x], also when one side is [NaN] (then both
    comparisons are false). *)
Lemma SFleb_SFltb_false (a b : spec_float) :
  SFleb a b = true -> SFltb b a = false.
Proof.
  unfold SFleb, SFltb.
  destruct a as [sa|sa| |sa ma ea], b as [sb|sb| |sb mb eb]; simpl;
    try destruct sa; try destruct sb; simpl; try congruence.
  all: compare_cases.
Qed.

(** [c <= a] and [a < b] exclude [b < c]. *)
Lemma SFleb_SFltb_trans_false (a b c : spec_float) :
  SFltb a b = true -> SFleb c a = true -> SFltb b c = false.
Proof.
  unfold SFleb, SFltb.
  destruct a as [sa|sa| |sa ma ea], b as [sb|sb| |sb mb eb],
           c as [sc|sc| |sc mc ec]; simpl;
    try destruct sa; try destruct sb; try destruct sc; simpl; try congruence.
  all: compare_cases.
Qed.

Lemma leb_ltb_false (x y : float) : (x <=? y) = true -> (y <? x) = false.
Proof. rewrite leb_spec, ltb_spec. apply SFleb_SFltb_false. Qed.

Lemma leb_ltb_trans_false (x y z : float) :
  (x <? y) = true -> (z <=? x) = true -> (y <? z) = false.
Proof. rewrite leb_spec, !ltb_spec. apply SFleb_SFltb_trans_false. Qed.

End FloatOrder.

Section Substrings.

Lemma strip_prefix_app (p r : string) : strip_prefix p (p ++ r)%string = Some r.
Proof.
  induction p as [|c p IH]; simpl; [reflexivity|].
  now rewrite Ascii.eqb_refl.
Qed.

Lemma strip_prefix_Some (p s r : string) :
  strip_prefix p s = Some r -> s = (p ++ r)%string.
Proof.
  revert s; induction p as [|c p IH]; intros [|d s]; simpl; try congruence.
  destruct (Ascii.eqb_spec c d) as [->|]; [|discriminate].
  intros H. now rewrite (IH _ H).
Qed.

Lemma startsWith_spec (s p : string) :
  startsWith s p = true <-> exists r, s = (p ++ r)%string.
Proof.
  unfold startsWith. split.
  - destruct (strip_prefix p s) as [r|] eqn:E; [|discriminate].
    intros _. exists r. now apply strip_prefix_Some.
  - intros (r & ->). now rewrite strip_prefix_app.
Qed.

(** [includes] is the substring test. *)
Lemma includes_spec (s term : string) :
  includes s term = true <-> exists a b, s = (a ++ term ++ b)%string.
Proof.
  split.
  - induction s as [|c s IH]; simpl; rewrite orb_true_iff;
      intros [H | H]; try discriminate.
    + apply startsWith_spec in H as (r & ->). now exists ""%string, r.
    + apply startsWith_spec in H as (r & ->). now exists ""%string, r.
    + destruct (IH H) as (a & b & ->). now exists (String c a), b.
  - intros (a & b & ->). induction a as [|c a IH].
    + assert (H : startsWith (term ++ b) term = true)
        by (apply startsWith_spec; now exists b).
      simpl. destruct (term ++ b)%string; simpl; now rewrite H.
    + simpl. rewrite IH. apply orb_true_r.
Qed.

End Substrings.

(** ** Segmenter *)

Section Segmenter.

Import Meditag.

Lemma segmentBase_primary (d : HCPData) (rate : float) :
  prescription_rate d = Some rate ->
  ((0.7 <? rate) = true -> segmentBase d = ("Early Adopter"%string, 0.85))
  /\ ((0.4 <? rate) = true -> (rate <=? 0.7) = true ->
      (exists years, years_experience d = Some years /\ (10 <? years) = true) ->
      segmentBase d = ("Evidence Driven"%string, 0.9))
  /\ ((0.4 <? rate) = true -> (rate <=? 0.7) = true ->
      (years_experience d = None
       \/ exists years, years_experience d = Some years /\ (years <=? 10) = true) ->
      segmentBase d = ("Mainstream"%string, 0.75))
  /\ ((rate <=? 0.4) = true -> segmentBase d = ("Conservative"%string, 0.8)).
Proof.
  intros Hr. unfold segmentBase, gt. rewrite Hr.
  repeat split.
  - now intros ->.
  - intros H4 H7 (y & -> & Hy).
    now rewrite (leb_ltb_false H7), H4, Hy.
  - intros H4 H7 Hy.
    rewrite (leb_ltb_false H7), H4.
    destruct Hy as [-> | (y & -> & Hy)]; [reflexivity|].
    now rewrite (leb_ltb_false Hy).
  - intros H4.
    assert (H7 : (0.7 <? rate) = false)
      by (apply (@leb_ltb_trans_false 0.4 0.7 rate); [reflexivity | exact H4]).
    now rewrite H7, (leb_ltb_false H4).
Qed.

Lemma analyzeHCP_total (hcpText : string) :
  analyzeHCP hcpText = Ok (segmentHCP (parseHCPData hcpText)).
Proof. reflexivity. Qed.

Lemma segmentHCP_base (d : HCPData) :
  segment (segmentHCP d) = fst (segmentBase d)
  /\ confidence (segmentHCP d)
     = specialtyAdjust d (fst (segmentBase d)) (snd (segmentBase d)).
Proof. unfold segmentHCP. now destruct (segmentBase d). Qed.

(** The base rule yields one of seven (segment, confidence) pairs. *)
Lemma segmentBase_cases (d : HCPData) :
  In (segmentBase d)
     [ ("Early Adopter"%string, 0.85); ("Evidence Driven"%string, 0.9);
       ("Mainstream"%string, 0.75); ("Conservative"%string, 0.8);
       ("Evidence Driven"%string, 0.7); ("Early Adopter"%string, 0.6);
       ("General"%string, 0.7) ].
Proof.
  unfold segmentBase, gt, lt.
  destruct (prescription_rate d) as [rate|], (years_experience d) as [years|];
    repeat match goal with
      | |- context [if ?b then _ else _] => destruct b
      end; simpl; tauto.
Qed.

Lemma segmentHCP_confidence_range (d : HCPData) :
  (0 <=? confidence (segmentHCP d)) = true
  /\ (confidence (segmentHCP d) <=? 1) = true.
Proof.
  destruct (segmentHCP_base d) as [_ ->].
  pose proof (segmentBase_cases d) as H.
  unfold specialtyAdjust.
  destruct (str_eq (specialty d) "Oncology"),
           (str_eq (specialty d) "Cardiology"),
           (str_eq (practice_size d) "large");
    simpl in H; intuition idtac;
    match goal with E : _ = segmentBase d |- _ => rewrite <- E end;
    vm_compute; auto.
Qed.

(** C4: for every HCP text whose parsed prescription rate is present, the
    segment and confidence before the specialty adjustment are
    Early Adopter / 0.85 when rate > 0.7; Evidence Driven / 0.9 when
    0.4 < rate <= 0.7 and the parsed years of experience exceed 10;
    Mainstream / 0.75 when 0.4 < rate <= 0.7 and the years are absent or at
    most 10; Conservative / 0.8 when rate <= 0.4.  The adjustment keeps the
    segment and only moves the confidence. *)
Theorem segmenter_primary_rule (hcpText : string) (rate : float) :
  prescription_rate (parseHCPData hcpText) = Some rate ->
  let d := parseHCPData hcpText in
  ((0.7 <? rate) = true -> segmentBase d = ("Early Adopter"%string, 0.85))
  /\ ((0.4 <? rate) = true -> (rate <=? 0.7) = true ->
      (exists years, years_experience d = Some years /\ (10 <? years) = true) ->
      segmentBase d = ("Evidence Driven"%string, 0.9))
  /\ ((0.4 <? rate) = true -> (rate <=? 0.7) = true ->
      (years_experience d = None
       \/ exists years, years_experience d = Some years /\ (years <=? 10) = true) ->
      segmentBase d = ("Mainstream"%string, 0.75))
  /\ ((rate <=? 0.4) = true -> segmentBase d = ("Conservative"%string, 0.8))
  /\ exists r, analyzeHCP hcpText = Ok r
               /\ segment r = fst (segmentBase d)
               /\ confidence r = specialtyAdjust d (fst (segmentBase d)) (snd (segmentBase d)).
Proof.
  intros Hr d.
  destruct (segmentBase_primary d Hr) as (H1 & H2 & H3 & H4).
  repeat split; try assumption.
  exists (segmentHCP d). split; [apply analyzeHCP_total | apply segmentHCP_base].
Qed.

Lemma segmenter_primary_rule_witness :
  let hcpText := "Cardiologist, prescription_rate: 0.8, years_experience: 12"%string in
  prescription_rate (parseHCPData hcpText) = Some 0.8
  /\ segmentBase (parseHCPData hcpText) = ("Early Adopter"%string, 0.85).
Proof.
  intros hcpText.
  assert (Hr : prescription_rate (parseHCPData hcpText) = Some 0.8)
    by (vm_compute; reflexivity).
  split; [exact Hr|].
  destruct (segmenter_primary_rule hcpText Hr) as (H1 & _).
  apply H1. reflexivity.
Defined.

(** C7: for every HCP text the Segmenter returns, and the confidence it
    returns lies in [0,1], specialty adjustments included, although the
    code never clamps it. *)
Theorem segmenter_confidence_in_unit_interval (hcpText : string) :
  exists r, analyzeHCP hcpText = Ok r
            /\ (0 <=? confidence r) = true /\ (confidence r <=? 1) = true.
Proof.
  exists (segmentHCP (parseHCPData hcpText)).
  split; [apply analyzeHCP_total | apply segmentHCP_confidence_range].
Qed.

(** C10: there is an HCP text whose prescription_rate field matches the
    extraction pattern but parses to NaN, namely "prescription_rate: .";
    the rate is then present, fails both comparisons, and the Segmenter
    answers Conservative with confidence 0.8. *)
Theorem segmenter_nan_rate_is_conservative :
  exists hcpText rate r,
    match_field "prescription_rate:" digit_or_dot hcpText = Some "."%string
    /\ prescription_rate (parseHCPData hcpText) = Some rate
    /\ PrimFloat.is_nan rate = true
    /\ (0.7 <? rate) = false /\ (0.4 <? rate) = false
    /\ analyzeHCP hcpText = Ok r
    /\ segment r = "Conservative"%string
    /\ confidence r = 0.8.
Proof.
  exists "prescription_rate: ."%string, nan.
  eexists. repeat split; vm_compute; reflexivity.
Qed.

End Segmenter.

(** ** Compliance Evaluator *)

Section ComplianceEvaluator.

Import Compliance.

Lemma existsb_includes_spec (terms : list string) (script : string) :
  existsb (fun term => includes (toLowerCase script) term) terms = true
  <-> has_term terms script.
Proof.
  rewrite existsb_exists. unfold has_term. split.
  - intros (term & Hin & H). apply includes_spec in H as (a & b & H).
    now exists term, a, b.
  - intros (term & a & b & Hin & H). exists term. split; [assumption|].
    apply includes_spec. now exists a, b.
Qed.

Lemma containsEvidenceBasedLanguage_spec (script : string) :
  containsEvidenceBasedLanguage script = true <-> has_term evidenceTerms script.
Proof. apply existsb_includes_spec. Qed.

Lemma simpleComplianceCheck_spec (script : string) :
  simpleComplianceCheck script = true
  <-> has_term evidenceTerms script /\ ~ has_term nonCompliantTerms script.
Proof.
  unfold simpleComplianceCheck.
  rewrite andb_true_iff, negb_true_iff, <- not_true_iff_false.
  now rewrite containsEvidenceBasedLanguage_spec, existsb_includes_spec.
Qed.

(** The primary path: the evaluator's result as a function of the verdict. *)
Lemma evaluateCompliance_primary (svc : OpenAI.Service) (script : string)
    (d : OpenAI.ComplianceDetails) :
  OpenAI.checkCompliance svc script = Ok d ->
  evaluateCompliance svc script
  = Ok (let st := if OpenAI.passed d then Passed
                  else if ge (OpenAI.score d) 60 then Review
                  else if containsEvidenceBasedLanguage script then Review
                  else Failed in
        {| passed := status_eqb st Passed; status := st; details := d |}).
Proof.
  intros H. unfold evaluateCompliance. rewrite H. simpl.
  destruct (OpenAI.passed d), (ge (OpenAI.score d) 60),
           (containsEvidenceBasedLanguage script); reflexivity.
Qed.

(** The failure path: the evaluator's result is the local heuristic's. *)
Lemma evaluateCompliance_fallback (svc : OpenAI.Service) (script : string) (e : Error) :
  OpenAI.checkCompliance svc script = Throw e ->
  evaluateCompliance svc script
  = Ok (let ok := simpleComplianceCheck script in
        {| passed := ok;
           status := if ok then Passed else Review;
           details :=
             {| OpenAI.passed := ok;
                OpenAI.score := if ok then 80 else 50;
                OpenAI.issues :=
                  Some (if ok then []
                        else ["Compliance check error - limited validation performed"%string]);
                OpenAI.recommendations :=
                  Some (if ok then []
                        else ["Include explicit evidence-based language"%string]) |} |}).
Proof. intros H. unfold evaluateCompliance. now rewrite H. Qed.

(** C1: on the primary path (the LLM verdict [d] arrived) the status is
    Passed when [d.passed]; Review when not passed and score >= 60;
    otherwise Failed, unless the script holds an evidence-language marker,
    which promotes Failed to Review; a verdict that did not pass never
    comes out as Passed. *)
Theorem primary_path_status (svc : OpenAI.Service) (script : string)
    (d : OpenAI.ComplianceDetails) :
  OpenAI.checkCompliance svc script = Ok d ->
  exists r,
    evaluateCompliance svc script = Ok r
    /\ details r = d
    /\ (OpenAI.passed d = true -> status r = Passed)
    /\ (OpenAI.passed d = false -> (60 <=? OpenAI.score d) = true -> status r = Review)
    /\ (OpenAI.passed d = false -> (60 <=? OpenAI.score d) = false ->
        has_term evidenceTerms script -> status r = Review)
    /\ (OpenAI.passed d = false -> (60 <=? OpenAI.score d) = false ->
        ~ has_term evidenceTerms script -> status r = Failed)
    /\ (OpenAI.passed d = false -> status r <> Passed).
Proof.
  intros H. eexists. split; [apply (evaluateCompliance_primary _ _ H)|].
  unfold ge. simpl. split; [reflexivity|].
  repeat split.
  - now intros ->.
  - now intros -> ->.
  - intros -> -> Hm. apply containsEvidenceBasedLanguage_spec in Hm. now rewrite Hm.
  - intros -> -> Hm. rewrite <- containsEvidenceBasedLanguage_spec in Hm.
    now destruct (containsEvidenceBasedLanguage script).
  - intros ->. destruct (60 <=? OpenAI.score d),
      (containsEvidenceBasedLanguage script); discriminate.
Qed.

Lemma primary_path_status_witness :
  exists r,
    evaluateCompliance Samples.strict_service "Shown in a Peer-Reviewed study." = Ok r
    /\ status r = Review.
Proof.
  destruct (@primary_path_status Samples.strict_service "Shown in a Peer-Reviewed study."
              {| OpenAI.passed := false; OpenAI.score := 40;
                 OpenAI.issues := Some []; OpenAI.recommendations := Some [] |}
              eq_refl)
    as (r & Hr & _ & _ & _ & H & _).
  exists r. split; [exact Hr|].
  apply H; [reflexivity | reflexivity |].
  exists "peer-reviewed"%string, "shown in a "%string, " study."%string.
  split; [simpl; tauto | reflexivity].
Defined.



(** C9: on both paths the result returned by [evaluateCompliance] has
    [passed = true] exactly when its status is Passed. *)
Theorem passed_iff_status_passed (svc : OpenAI.Service) (script : string) :
  exists r,
    evaluateCompliance svc script = Ok r
    /\ (passed r = true <-> status r = Passed).
Proof.
  destruct (OpenAI.checkCompliance svc script) as [d|e] eqn:H.
  - eexists. split; [apply (evaluateCompliance_primary _ _ H)|].
    simpl. destruct (OpenAI.passed d), (ge (OpenAI.score d) 60),
      (containsEvidenceBasedLanguage script); simpl; split; congruence.
  - eexists. split; [apply (evaluateCompliance_fallback _ _ H)|].
    simpl. destruct (simpleComplianceCheck script); split; congruence.
Qed.

End ComplianceEvaluator.

(** ** Video Synthesizer *)

Section VideoSynthesizer.

Import HeyGen.

Lemma placeholder_thumbnail :
  generateThumbnailUrl placeholderVideoUrl = placeholderThumbnailUrl.
Proof. reflexivity. Qed.

Lemma truthy_string_nonempty (s : string) : truthy_string s = true -> s <> ""%string.
Proof. now destruct s. Qed.

(** [checkVideoStatus] absorbs every failure of the two status endpoints. *)
Lemma checkVideoStatus_total (p : Provider) (videoId apiKey : string) :
  exists url, checkVideoStatus p videoId apiKey = Ok url /\ url <> ""%string.
Proof.
  unfold checkVideoStatus, await.
  destruct (get_video_status p videoId) as [[u|]|e1]; simpl;
    try (destruct (truthy_string u) eqn:Hu; simpl;
         [exists u; split; [reflexivity | now apply truthy_string_nonempty]|]).
  all: destruct (get_task_status p videoId) as [[u'|]|e2]; simpl;
    try (destruct (truthy_string u') eqn:Hu'; simpl;
         [exists u'; split; [reflexivity | now apply truthy_string_nonempty]|]).
  all: exists placeholderVideoUrl; split; [reflexivity | discriminate].
Qed.

Lemma checkVideoStatus_placeholder (p : Provider) (videoId apiKey : string) :
  has_url (get_video_status p videoId) = false ->
  has_url (get_task_status p videoId) = false ->
  checkVideoStatus p videoId apiKey = Ok placeholderVideoUrl.
Proof.
  unfold checkVideoStatus, await, has_url.
  destruct (get_video_status p videoId) as [u|e1]; simpl; [intros ->|intros _]; simpl.
  all: destruct (get_task_status p videoId) as [u'|e2]; simpl; [intros ->|intros _];
    reflexivity.
Qed.

Lemma heygen_generateVideo_cases (p : Provider) (script targetHCP : string) :
  exists r,
    generateVideo p script targetHCP = Ok r
    /\ videoUrl r <> ""%string
    /\ (truthy_opt_string (HEYGEN_API_KEY p) = false -> r = placeholderResult)
    /\ (forall e, submitVideo p (getAvatarForHCP targetHCP) script = Throw e ->
        r = placeholderResult)
    /\ (forall id,
          truthy_opt_string (HEYGEN_API_KEY p) = true ->
          submitVideo p (getAvatarForHCP targetHCP) script = Ok id ->
          has_url (get_video_status p id) = false ->
          has_url (get_task_status p id) = false ->
          r = {| videoUrl := placeholderVideoUrl;
                 thumbnailUrl := placeholderThumbnailUrl;
                 videoId := id |}).
Proof.
  unfold generateVideo.
  destruct (HEYGEN_API_KEY p) as [apiKey|]; simpl.
  2: { exists placeholderResult. repeat split; try discriminate; auto. }
  destruct (truthy_string apiKey) eqn:Hk; simpl.
  2: { exists placeholderResult. repeat split; try discriminate; auto. }
  destruct (submitVideo p (getAvatarForHCP targetHCP) script) as [id|e] eqn:Hs; simpl.
  2: { exists placeholderResult. repeat split; try discriminate; auto. }
  destruct (checkVideoStatus_total p id apiKey) as (url & Hu & Hne).
  rewrite Hu. simpl. eexists. split; [reflexivity|]. simpl.
  repeat split; try discriminate; try assumption.
  intros id' _ [= <-] H1 H2.
  rewrite (checkVideoStatus_placeholder p id apiKey H1 H2) in Hu.
  injection Hu as <-. reflexivity.
Qed.

(** The second provider: its polling stub always answers the placeholder
    URL, so only the identifier tells a finished job from a failed one. *)
Lemma veo_generateVideo_cases (q : Veo.Provider) (script targetHCP : string) :
  exists r,
    Veo.generateVideo q script targetHCP = Ok r
    /\ Veo.videoUrl r = placeholderVideoUrl
    /\ Veo.thumbnailUrl r = placeholderThumbnailUrl
    /\ (truthy_opt_string (Veo.VEO_API_KEY q) = false -> r = Veo.placeholderResult)
    /\ (forall e, Veo.post_generate q script (Veo.getSpeakerForHCP targetHCP) = Throw e ->
        r = Veo.placeholderResult)
    /\ (forall b, Veo.post_generate q script (Veo.getSpeakerForHCP targetHCP) = Ok b ->
        truthy_opt_string (Veo.body_id b) = false -> r = Veo.placeholderResult).
Proof.
  unfold Veo.generateVideo.
  destruct (Veo.VEO_API_KEY q) as [apiKey|]; simpl.
  2: { exists Veo.placeholderResult. repeat split; try discriminate; auto. }
  destruct (truthy_string apiKey) eqn:Hk; simpl.
  2: { exists Veo.placeholderResult. repeat split; try discriminate; auto. }
  destruct (Veo.post_generate q script (Veo.getSpeakerForHCP targetHCP)) as [b|e];
    simpl.
  - destruct (truthy_opt_string (Veo.body_id b)) eqn:Hb; simpl.
    + eexists. split; [reflexivity|]. simpl.
      repeat split; try discriminate.
      intros b' [= <-]. congruence.
    + exists Veo.placeholderResult. repeat split; auto.
  - exists Veo.placeholderResult.
    destruct (response e) as [r|];
      [destruct ((http_status r =? 402)%Z
                 && opt_string_eqb (data_error r) "Insufficient credits")|];
      simpl; repeat split; auto.
Qed.

End VideoSynthesizer.

(** ** Pipeline Orchestrator *)

Section Orchestrator.

Import Storage VideoService.

(** Rethrowing in the [catch] clause leaves [createVideo] equal to its body. *)
Lemma createVideo_unfold (w : World) (uploadId : option Z) (prompt : string)
    (hcpText : option string) (st : Store) :
  createVideo w uploadId prompt hcpText st
  = match resolveInput uploadId hcpText st with
    | (Ok input, st1) => runPipeline w prompt input st1
    | (Throw e, st1) => (Throw e, st1)
    end.
Proof.
  unfold createVideo, Storage.try_catch, Storage.bind, throw.
  destruct (resolveInput uploadId hcpText st) as [[input|e] st1]; [|reflexivity].
  now destruct (runPipeline w prompt input st1) as [[v|e] st2].
Qed.

(** Input resolution never touches the [videos] table. *)
Lemma resolveInput_videos (uploadId : option Z) (hcpText : option string) (st : Store) :
  videos (snd (resolveInput uploadId hcpText st)) = videos st.
Proof.
  unfold resolveInput, Storage.bind, Storage.getUpload, Storage.createUpload, ret, throw.
  destruct (truthy_id uploadId).
  - now destruct (find _ (uploads st)).
  - destruct (truthy_opt_string hcpText); [|reflexivity].
    now destruct (truthy_string (trim _)).
Qed.

(** No upload id and no text at all: the default profile is stored as a new
    upload and handed on. *)
Lemma resolveInput_absent (uploadId : option Z) (hcpText : option string) (st : Store) :
  truthy_id uploadId = false ->
  truthy_opt_string hcpText = false ->
  resolveInput uploadId hcpText st
  = (Ok (defaultHcpText, Some (uploads_seq st + 1)%Z, None),
     {| uploads := {| upload_id_of := uploads_seq st + 1;
                      user_id := "anonymous";
                      hcp_text := defaultHcpText;
                      document_path := None |} :: uploads st;
        videos := videos st;
        uploads_seq := uploads_seq st + 1;
        videos_seq := videos_seq st |}).
Proof. unfold resolveInput. now intros -> ->. Qed.

(** No upload id and a text of white space only: the default profile is
    used, but nothing is stored and no upload is handed on. *)
Lemma resolveInput_blank (uploadId : option Z) (hcpText : string) (st : Store) :
  truthy_id uploadId = false ->
  truthy_string hcpText = true ->
  trim hcpText = ""%string ->
  resolveInput uploadId (Some hcpText) st = (Ok (defaultHcpText, uploadId, None), st).
Proof. unfold resolveInput. simpl. now intros -> -> ->. Qed.

Lemma evaluateCompliance_total (svc : OpenAI.Service) (script : string) :
  exists r, Compliance.evaluateCompliance svc script = Ok r.
Proof.
  unfold Compliance.evaluateCompliance.
  destruct (OpenAI.checkCompliance svc script); simpl; eauto.
Qed.

(** A failed draft stops the run where it stands. *)
Lemma runPipeline_script_failure (w : World) (prompt : string)
    (input : string * option Z * option string) (e : Error) (st : Store) :
  OpenAI.generateScript (openai w) (fst (fst input)) prompt (snd input) = Throw e ->
  runPipeline w prompt input st = (Throw e, st).
Proof.
  destruct input as [[t u] d]. simpl. intros H.
  unfold runPipeline, Storage.bind, lift. simpl. now rewrite H.
Qed.

(** After a successful draft every later stage succeeds, and one row is
    added to [videos]. *)
Lemma runPipeline_script_ok (w : World) (prompt : string)
    (input : string * option Z * option string) (sr : OpenAI.ScriptGenerationResult)
    (st : Store) :
  OpenAI.generateScript (openai w) (fst (fst input)) prompt (snd input) = Ok sr ->
  exists v vr,
    runPipeline w prompt input st
    = (Ok v, {| uploads := uploads st; videos := v :: videos st;
                uploads_seq := uploads_seq st; videos_seq := videos_seq st + 1 |})
    /\ HeyGen.generateVideo (heygen w) (OpenAI.script sr) (OpenAI.targetAudience sr) = Ok vr
    /\ video_url (row v) = HeyGen.videoUrl vr
    /\ thumbnail_url (row v) = Some (HeyGen.thumbnailUrl vr)
    /\ upload_id (row v)
       = (if truthy_id (snd (fst input))
          then match snd (fst input) with Some z => z | None => 0%Z end else 0%Z).
Proof.
  destruct input as [[t u] d]. simpl. intros H.
  destruct (evaluateCompliance_total (openai w) (OpenAI.script sr)) as (cr & Hc).
  destruct (heygen_generateVideo_cases (heygen w) (OpenAI.script sr)
              (OpenAI.targetAudience sr)) as (vr & Hv & _).
  unfold runPipeline, Storage.bind, lift, Storage.createVideo. simpl.
  rewrite H, Hc, Hv. eexists. exists vr. split; [reflexivity|].
  simpl. auto.
Qed.

(** C3 (as amended): the Video Synthesizer never raises and always returns a
    non-empty video URL.  Without an API key, or when both submission
    endpoints fail, it returns the placeholder video URL, the placeholder
    thumbnail URL and the simulated video id; when the job was accepted and
    both status endpoints fail, it returns the two placeholder URLs with the
    provider's job id.  The second provider returns the placeholder URLs in
    every case and the simulated id on every error.  Hence every run whose
    input resolves and whose script is drafted stores one Video row, with a
    non-empty video URL. *)
Theorem synthesizer_never_raises (w : World) (q : Veo.Provider)
    (script targetHCP : string) :
  (exists r,
     HeyGen.generateVideo (heygen w) script targetHCP = Ok r
     /\ HeyGen.videoUrl r <> ""%string
     /\ (truthy_opt_string (HeyGen.HEYGEN_API_KEY (heygen w)) = false ->
         r = HeyGen.placeholderResult)
     /\ (forall e,
           HeyGen.submitVideo (heygen w) (HeyGen.getAvatarForHCP targetHCP) script = Throw e ->
           r = HeyGen.placeholderResult)
     /\ (forall id,
           truthy_opt_string (HeyGen.HEYGEN_API_KEY (heygen w)) = true ->
           HeyGen.submitVideo (heygen w) (HeyGen.getAvatarForHCP targetHCP) script = Ok id ->
           HeyGen.has_url (HeyGen.get_video_status (heygen w) id) = false ->
           HeyGen.has_url (HeyGen.get_task_status (heygen w) id) = false ->
           r = {| HeyGen.videoUrl := HeyGen.placeholderVideoUrl;
                  HeyGen.thumbnailUrl := HeyGen.placeholderThumbnailUrl;
                  HeyGen.videoId := id |}))
  /\ (exists r,
       Veo.generateVideo q script targetHCP = Ok r
       /\ Veo.videoUrl r = HeyGen.placeholderVideoUrl
       /\ Veo.thumbnailUrl r = HeyGen.placeholderThumbnailUrl
       /\ (truthy_opt_string (Veo.VEO_API_KEY q) = false -> r = Veo.placeholderResult)
       /\ (forall e,
             Veo.post_generate q script (Veo.getSpeakerForHCP targetHCP) = Throw e ->
             r = Veo.placeholderResult)
       /\ (forall b,
             Veo.post_generate q script (Veo.getSpeakerForHCP targetHCP) = Ok b ->
             truthy_opt_string (Veo.body_id b) = false -> r = Veo.placeholderResult))
  /\ (forall st uploadId prompt hcpText input st1 sr,
        resolveInput uploadId hcpText st = (Ok input, st1) ->
        OpenAI.generateScript (openai w) (fst (fst input)) prompt (snd input) = Ok sr ->
        exists v st2,
          createVideo w uploadId prompt hcpText st = (Ok v, st2)
          /\ videos st2 = v :: videos st1
          /\ video_url (row v) <> ""%string).
Proof.
  split; [apply heygen_generateVideo_cases|].
  split; [apply veo_generateVideo_cases|].
  intros st uploadId prompt hcpText input st1 sr Hres Hgen.
  rewrite createVideo_unfold, Hres.
  destruct (runPipeline_script_ok w prompt input st1 Hgen)
    as (v & vr & Hrun & Hv & Hurl & _).
  destruct (heygen_generateVideo_cases (heygen w) (OpenAI.script sr)
              (OpenAI.targetAudience sr)) as (vr' & Hv' & Hne & _).
  rewrite Hv in Hv'. injection Hv' as <-.
  eexists. eexists. split; [exact Hrun|]. split; [reflexivity|].
  now rewrite Hurl.
Qed.

Lemma synthesizer_never_raises_witness :
  exists v st2,
    createVideo Samples.demo_world None "Create a video" None Storage.empty = (Ok v, st2)
    /\ videos st2 = [v]
    /\ video_url (row v) <> ""%string.
Proof.
  destruct (synthesizer_never_raises Samples.demo_world
              {| Veo.VEO_API_KEY := None;
                 Veo.post_generate := fun _ _ => Throw (error "Network Error") |}
              "Proven in a clinical trial." "Cardiologist") as (_ & _ & H).
  destruct (H Storage.empty None "Create a video"%string None
              (defaultHcpText, Some 1%Z, None) _ _ eq_refl eq_refl)
    as (v & st2 & Hrun & Hvs & Hurl).
  exists v, st2. repeat split; assumption.
Defined.

(** C3, as stated, fails: a provider that accepts the job and then fails
    both status look-ups (a status-polling failure) gets the placeholder URLs
    but keeps the provider's job id, not the simulated video id. *)
Lemma synthesizer_keeps_job_id_counterexample :
  HeyGen.has_url (HeyGen.get_video_status Samples.stalled_provider "job-1") = false
  /\ HeyGen.has_url (HeyGen.get_task_status Samples.stalled_provider "job-1") = false
  /\ HeyGen.generateVideo Samples.stalled_provider "Proven in a clinical trial." "Cardiologist"
     = Ok {| HeyGen.videoUrl := HeyGen.placeholderVideoUrl;
             HeyGen.thumbnailUrl := HeyGen.placeholderThumbnailUrl;
             HeyGen.videoId := "job-1" |}
  /\ HeyGen.generateVideo Samples.stalled_provider "Proven in a clinical trial." "Cardiologist"
     <> Ok HeyGen.placeholderResult.
Proof. repeat split; try reflexivity. vm_compute. discriminate. Qed.




(** The white-space branch in general: whatever the store and the
    collaborators, no Upload row is added and the Video points at upload 0
    (or at nothing better: the falsy id it was called with). *)
Lemma blank_hcp_text_general (w : World) (st : Store) (uploadId : option Z)
    (prompt hcpText : string) (sr : OpenAI.ScriptGenerationResult) :
  truthy_id uploadId = false ->
  truthy_string hcpText = true ->
  trim hcpText = ""%string ->
  OpenAI.generateScript (openai w) defaultHcpText prompt None = Ok sr ->
  exists v st2,
    createVideo w uploadId prompt (Some hcpText) st = (Ok v, st2)
    /\ uploads st2 = uploads st
    /\ videos st2 = v :: videos st
    /\ upload_id (row v) = 0%Z.
Proof.
  intros Hid Hne Htrim Hgen.
  rewrite createVideo_unfold, (@resolveInput_blank uploadId hcpText st Hid Hne Htrim).
  match goal with |- context [runPipeline w prompt ?i ?s] =>
    destruct (@runPipeline_script_ok w prompt i sr s Hgen) as (v & vr & Hrun & _ & _ & _ & Hup)
  end.
  rewrite Hrun. eexists. eexists. split; [reflexivity|].
  simpl. repeat split. rewrite Hup. simpl. now rewrite Hid.
Qed.

(** C6, the failing input: no upload id and an HCP text of three blanks.
    The default profile is used for the run, but no Upload row is created and
    the stored Video points at upload 0, which does not exist. *)
Theorem blank_hcp_text_creates_no_upload :
  exists v st2,
    createVideo Samples.demo_world None "Create a video" (Some "   "%string) Storage.empty
    = (Ok v, st2)
    /\ uploads st2 = []
    /\ videos st2 = [v]
    /\ upload_id (row v) = 0%Z
    /\ find (fun u => (upload_id_of u =? upload_id (row v))%Z) (uploads st2) = None.
Proof. eexists. eexists. repeat split. Qed.

(** The sibling branch: with no upload id and no (or an empty) HCP text the
    default profile is stored as a new Upload and the Video points at it. *)
Lemma absent_hcp_text_creates_upload (w : World) (st : Store) (uploadId : option Z)
    (prompt : string) (hcpText : option string) (sr : OpenAI.ScriptGenerationResult) :
  truthy_id uploadId = false ->
  truthy_opt_string hcpText = false ->
  OpenAI.generateScript (openai w) defaultHcpText prompt None = Ok sr ->
  exists v u st2,
    createVideo w uploadId prompt hcpText st = (Ok v, st2)
    /\ uploads st2 = u :: uploads st
    /\ hcp_text u = defaultHcpText
    /\ videos st2 = v :: videos st
    /\ upload_id (row v) = upload_id_of u.
Proof.
  intros Hid Htx Hgen.
  rewrite createVideo_unfold, (resolveInput_absent _ _ st Hid Htx).
  match goal with |- context [runPipeline w prompt ?i ?s] =>
    destruct (@runPipeline_script_ok w prompt i sr s Hgen) as (v & vr & Hrun & _ & _ & _ & Hup)
  end.
  rewrite Hrun. eexists. eexists. eexists. split; [reflexivity|].
  simpl. repeat split.
  rewrite Hup. simpl. unfold truthy_Z.
  destruct (uploads_seq st + 1 =? 0)%Z eqn:E; simpl; [|reflexivity].
  apply Z.eqb_eq in E. now rewrite E.
Qed.

End Orchestrator.

(** ** Compliance statistics *)

Section Statistics.

Import Storage VideoService.




Lemma complianceStatsOf_aggregates (rows : list Video) :
  complianceStatsOf rows
  = let n := Z.of_nat (List.length rows) in
    {| compliance_rate :=
         if (0 <? n)%Z
         then Math_round (Number_of_Z (passedCount rows) / Number_of_Z n * 100)
         else 95;
       hcp_response_rate := 20;
       turnaround_time := "7-15 days";
       videos_generated := if truthy_Z n then n else 127;
       videos_passed := if truthy_Z (passedCount rows) then passedCount rows else 121;
       avg_duration :=
         if (0 <? n)%Z
         then toFixed1 (Number_of_Z (totalDuration rows) / Number_of_Z n)
         else 8.5;
       adoption_gains := "$380K" |}.
Proof. reflexivity. Qed.





End Statistics.

(** * Further properties of the code *)

(** ** More facts about strings *)

Section MoreStrings.

Import Text.

Lemma map_string_app (f : ascii -> ascii) (a b : string) :
  map_string f (a ++ b) = (map_string f a ++ map_string f b)%string.
Proof. induction a as [|c a IH]; simpl; [reflexivity | now rewrite IH]. Qed.

Lemma toLowerCase_app (a b : string) :
  toLowerCase (a ++ b) = (toLowerCase a ++ toLowerCase b)%string.
Proof. apply map_string_app. Qed.

Lemma append_assoc (a b c : string) : ((a ++ b) ++ c = a ++ (b ++ c))%string.
Proof. induction a as [|x a IH]; simpl; [reflexivity | now rewrite IH]. Qed.

Lemma append_nil_r (a : string) : (a ++ "")%string = a.
Proof. induction a as [|x a IH]; simpl; [reflexivity | now rewrite IH]. Qed.

(** Two ways of cutting one string: one cut lies inside the other's first
    or second part. *)
Lemma append_eq_split (a b c d : string) :
  (a ++ b)%string = (c ++ d)%string ->
  (exists u, a = (c ++ u)%string /\ d = (u ++ b)%string)
  \/ (exists u, c = (a ++ u)%string /\ b = (u ++ d)%string).
Proof.
  revert c. induction a as [|x a IH]; intros c H; simpl in H.
  - right. now exists c.
  - destruct c as [|y c]; simpl in H.
    + left. now exists (String x a).
    + injection H as -> H. destruct (IH c H) as [(u & -> & ->) | (u & -> & ->)].
      * left. now exists u.
      * right. now exists u.
Qed.

Lemma count_char_app (c : ascii) (a b : string) :
  count_char c (a ++ b) = (count_char c a + count_char c b)%nat.
Proof. induction a as [|x a IH]; simpl; [reflexivity | rewrite IH; lia]. Qed.

Lemma last_char_app (a b : string) :
  b <> ""%string -> last_char (a ++ b) = last_char b.
Proof.
  intros Hb. induction a as [|x a IH]; simpl; [reflexivity|].
  destruct (a ++ b)%string eqn:E; [|exact IH].
  destruct a; simpl in E; [contradiction | discriminate].
Qed.

Lemma last_char_count (c : ascii) (s : string) :
  last_char s = Some c -> (1 <= count_char c s)%nat.
Proof.
  induction s as [|x s IH]; simpl; [discriminate|].
  destruct s as [|y s].
  - intros [= ->]. rewrite Ascii.eqb_refl. simpl. lia.
  - intros H. specialize (IH H). lia.
Qed.

(** A string whose last character occurs nowhere else in it has no
    border: no proper non-empty prefix of it is also a suffix. *)
Lemma no_border (c : ascii) (label p u v : string) :
  last_char label = Some c -> count_char c label = 1%nat ->
  label = (p ++ u)%string -> label = (u ++ v)%string ->
  u = ""%string \/ v = ""%string.
Proof.
  intros Hl Hc Hpu Huv.
  destruct u as [|x u]; [now left|]. destruct v as [|y v]; [now right|].
  exfalso.
  assert (Hu : (1 <= count_char c (String x u))%nat).
  { apply last_char_count. rewrite <- Hl, Hpu. symmetry. now apply last_char_app. }
  assert (Hv : (1 <= count_char c (String y v))%nat).
  { apply last_char_count. rewrite <- Hl, Huv. symmetry. now apply last_char_app. }
  rewrite Huv, count_char_app in Hc. lia.
Qed.

End MoreStrings.

(** ** Segmenter: field extraction and the fallback rule *)

Section MoreSegmenter.

Import Text Meditag.

Lemma length_app (a b : string) :
  String.length (a ++ b) = (String.length a + String.length b)%nat.
Proof. induction a as [|x a IH]; simpl; [reflexivity | now rewrite IH]. Qed.


Lemma lower_char_idem (c : ascii) : lower_char (lower_char c) = lower_char c.
Proof. destruct c as [[] [] [] [] [] [] [] []]; reflexivity. Qed.

Lemma toLowerCase_idem (s : string) : toLowerCase (toLowerCase s) = toLowerCase s.
Proof.
  unfold toLowerCase. induction s as [|c s IH]; simpl; [reflexivity|].
  now rewrite lower_char_idem, IH.
Qed.

(** A case-insensitive match of the label consumes a case variant of it. *)
Lemma strip_prefix_ci_Some (label s r : string) :
  strip_prefix_ci label s = Some r ->
  exists s1, s = (s1 ++ r)%string /\ toLowerCase s1 = toLowerCase label.
Proof.
  revert s. induction label as [|a l IH]; intros s; simpl.
  - intros [= ->]. now exists ""%string.
  - destruct s as [|b s]; [discriminate|].
    destruct (Ascii.eqb_spec (lower_char a) (lower_char b)) as [E|]; [|discriminate].
    intros H. destruct (IH _ H) as (s1 & -> & Hs1).
    exists (String b s1). split; [reflexivity|].
    unfold toLowerCase in *. simpl. now rewrite Hs1, E.
Qed.

Lemma strip_prefix_ci_variant (label L r : string) :
  toLowerCase L = toLowerCase label -> strip_prefix_ci label (L ++ r) = Some r.
Proof.
  revert L. induction label as [|a l IH]; intros [|b L]; simpl; try discriminate.
  - reflexivity.
  - unfold toLowerCase. simpl. intros [= E H].
    rewrite E, Ascii.eqb_refl. now apply IH.
Qed.

(** The pattern can only match where its label occurs (in any case). *)
Lemma match_field_includes (label : string) (cls : ascii -> bool) (s cap : string) :
  match_field label cls s = Some cap ->
  includes (toLowerCase s) (toLowerCase label) = true.
Proof.
  induction s as [|c s IH]; intros H; simpl in H;
    match type of H with context [strip_prefix_ci label ?x] =>
      destruct (strip_prefix_ci label x) as [r|] eqn:E
    end; try discriminate.
  - apply strip_prefix_ci_Some in E as (s1 & Hs & Hl).
    apply includes_spec. exists ""%string, (toLowerCase r).
    simpl. rewrite <- Hl, <- toLowerCase_app. now rewrite <- Hs.
  - apply strip_prefix_ci_Some in E as (s1 & Hs & Hl).
    apply includes_spec. exists ""%string, (toLowerCase r).
    simpl. rewrite <- Hl, <- toLowerCase_app. now rewrite <- Hs.
  - apply includes_spec in IH as (a & b & Hab); [|exact H].
    apply includes_spec. exists (String (lower_char c) a), b.
    change (toLowerCase (String c s)) with (String (lower_char c) (toLowerCase s)).
    now rewrite Hab.
Qed.

Lemma includes_cons_false (c : ascii) (s term : string) :
  includes (String c s) term = false ->
  startsWith (String c s) term = false /\ includes s term = false.
Proof. simpl. now rewrite orb_false_iff. Qed.

(** Before the first occurrence of the label nothing matches. *)
Lemma strip_prefix_ci_before_label (c : ascii) (label q L rest : string) :
  last_char label = Some c -> count_char c label = 1%nat ->
  toLowerCase label = label ->
  q <> ""%string ->
  startsWith (toLowerCase q) label = false ->
  toLowerCase L = label ->
  strip_prefix_ci label (q ++ L ++ rest) = None.
Proof.
  intros Hl Hc Hlow Hq Hst HL.
  destruct (strip_prefix_ci label (q ++ L ++ rest)) as [r|] eqn:E; [|reflexivity].
  exfalso. apply strip_prefix_ci_Some in E as (s1 & Hs & Hs1).
  rewrite Hlow in Hs1.
  assert (Hstart : forall u, toLowerCase q <> (label ++ u)%string).
  { intros u Hu. rewrite Hu in Hst.
    assert (startsWith (label ++ u) label = true)
      by (apply startsWith_spec; now exists u).
    congruence. }
  symmetry in Hs. destruct (@append_eq_split _ _ _ _ Hs) as [(u & Hu & Hr) | (u & Hu & _)].
  - (* the match runs beyond q *)
    assert (Hlab : label = (toLowerCase q ++ toLowerCase u)%string)
      by (now rewrite <- Hs1, Hu, toLowerCase_app).
    destruct (@append_eq_split _ _ _ _ Hr) as [(v & Hv & _) | (v & Hv & _)].
    + (* L = u ++ v *)
      assert (Hlab' : label = (toLowerCase u ++ toLowerCase v)%string)
        by (now rewrite <- HL, Hv, toLowerCase_app).
      destruct (@no_border c _ _ _ _ Hl Hc Hlab Hlab') as [Hu0 | Hv0].
      * apply (Hstart ""%string). rewrite append_nil_r.
        rewrite Hu0, append_nil_r in Hlab. congruence.
      * assert (Hlen := f_equal String.length Hlab).
        rewrite Hlab' in Hlen at 1. rewrite Hv0, !length_app in Hlen. simpl in Hlen.
        destruct q; [contradiction|]. simpl in Hlen. lia.
    + (* u = L ++ v *)
      assert (Hlen := f_equal String.length Hlab).
      rewrite Hv, toLowerCase_app, HL, !length_app in Hlen.
      destruct q; [contradiction|]. simpl in Hlen. lia.
  - (* the match lies inside q *)
    apply (Hstart (toLowerCase u)). now rewrite Hu, toLowerCase_app, Hs1.
Qed.

Lemma match_field_first_occurrence (c : ascii) (label : string) (cls : ascii -> bool)
    (pre L rest cap : string) :
  last_char label = Some c -> count_char c label = 1%nat ->
  toLowerCase label = label ->
  includes (toLowerCase pre) label = false ->
  toLowerCase L = label ->
  capture_after_spaces cls rest = Some cap ->
  match_field label cls (pre ++ L ++ rest) = Some cap.
Proof.
  intros Hl Hc Hlow Hpre HL Hcap.
  induction pre as [|x pre IH].
  - simpl. destruct (L ++ rest)%string eqn:E; simpl; rewrite <- E;
      rewrite strip_prefix_ci_variant, Hcap by congruence; reflexivity.
  - change (toLowerCase (String x pre))
      with (String (lower_char x) (toLowerCase pre)) in Hpre.
    apply includes_cons_false in Hpre as [Hst Hin].
    change ((String x pre ++ L ++ rest)%string)
      with (String x (pre ++ L ++ rest)).
    cbn [match_field].
    change (String x (pre ++ L ++ rest)) with ((String x pre ++ L ++ rest)%string).
    rewrite (@strip_prefix_ci_before_label c label (String x pre) L rest Hl Hc Hlow)
      by (assumption || discriminate).
    now apply IH.
Qed.

(** After the label: white space, then the run of class characters. *)
Lemma capture_after_spaces_run (cls : ascii -> bool) (ws ds post : string) :
  all_chars is_space ws = true ->
  all_chars cls ds = true ->
  starts_with_char cls ds = true ->
  starts_with_char is_space ds = false ->
  starts_with_char cls post = false ->
  capture_after_spaces cls (ws ++ ds ++ post) = Some ds.
Proof.
  intros Hws Hds Hd Hsp Hpost.
  assert (Htake : take_while cls (ds ++ post) = ds).
  { clear Hd Hsp. induction ds as [|d ds IH]; simpl in *.
    - destruct post; simpl in *; [reflexivity | now rewrite Hpost].
    - apply andb_true_iff in Hds as [-> Hds]. now rewrite IH. }
  induction ws as [|w ws IH]; simpl in *.
  - destruct ds as [|d ds]; [discriminate|]. simpl in *.
    rewrite Hsp. rewrite Hd. simpl in Htake. rewrite Hd in Htake. exact (f_equal Some Htake).
  - apply andb_true_iff in Hws as [-> Hws]. now rewrite IH.
Qed.

Lemma ltb_leb (x y : float) : (x <? y) = true -> (x <=? y) = true.
Proof.
  rewrite ltb_spec, leb_spec. unfold SFltb, SFleb.
  now destruct (SFcompare (Prim2SF x) (Prim2SF y)) as [[]|].
Qed.

Lemma digit_or_dot_not_space (c : ascii) : digit_or_dot c = true -> is_space c = false.
Proof. destruct c as [[] [] [] [] [] [] [] []]; vm_compute; congruence. Qed.

Lemma is_digit_not_space (c : ascii) : is_digit c = true -> is_space c = false.
Proof. destruct c as [[] [] [] [] [] [] [] []]; vm_compute; congruence. Qed.

Lemma all_chars_first (p : ascii -> bool) (s : string) :
  all_chars p s = true -> s <> ""%string -> starts_with_char p s = true.
Proof.
  destruct s as [|c s]; simpl; [congruence|].
  intros H _. now apply andb_true_iff in H.
Qed.

Lemma first_not_space (p : ascii -> bool) (s : string) :
  (forall c, p c = true -> is_space c = false) ->
  starts_with_char p s = true -> starts_with_char is_space s = false.
Proof. destruct s as [|c s]; simpl; [discriminate | auto]. Qed.

(** X1: when no prescription rate is parsed, the years of experience decide:
    more than 15 gives Evidence Driven / 0.7, fewer than 5 gives
    Early Adopter / 0.6, anything from 5 to 15 gives General / 0.7, and so
    does a text without years. *)
Theorem segmenter_fallback_rule (hcpText : string) :
  prescription_rate (parseHCPData hcpText) = None ->
  let d := parseHCPData hcpText in
  (forall years, years_experience d = Some years -> (15 <? years) = true ->
     segmentBase d = ("Evidence Driven"%string, 0.7))
  /\ (forall years, years_experience d = Some years -> (years <? 5) = true ->
        segmentBase d = ("Early Adopter"%string, 0.6))
  /\ (forall years, years_experience d = Some years ->
        (5 <=? years) = true -> (years <=? 15) = true ->
        segmentBase d = ("General"%string, 0.7))
  /\ (years_experience d = None -> segmentBase d = ("General"%string, 0.7)).
Proof.
  intros Hr d. subst d. unfold segmentBase, gt, lt. rewrite Hr.
  repeat split.
  - intros y -> Hy. now rewrite Hy.
  - intros y -> Hy.
    assert (H15 : (15 <? y) = false)
      by (apply (@leb_ltb_trans_false 5 15 y); [reflexivity | now apply ltb_leb]).
    now rewrite H15, Hy.
  - intros y -> H5 H15.
    now rewrite (leb_ltb_false H15), (leb_ltb_false H5).
  - now intros ->.
Qed.

Lemma segmenter_fallback_rule_witness :
  prescription_rate (parseHCPData "Neurologist, years_experience: 20") = None
  /\ segmentBase (parseHCPData "Neurologist, years_experience: 20")
     = ("Evidence Driven"%string, 0.7).
Proof.
  assert (Hr : prescription_rate (parseHCPData "Neurologist, years_experience: 20") = None)
    by reflexivity.
  split; [exact Hr|].
  destruct (segmenter_fallback_rule "Neurologist, years_experience: 20" Hr) as (H & _).
  apply (H 20); reflexivity.
Defined.

(** X2: whatever the text, the Segmenter returns one of its five segment
    names together with the reason that belongs to that name; the
    insufficient-data reason goes with General and with nothing else. *)
Theorem segmenter_segment_and_reason (hcpText : string) :
  exists r,
    analyzeHCP hcpText = Ok r
    /\ characteristics r = parseHCPData hcpText
    /\ In (segment r, segmentReason r)
         [ ("Early Adopter"%string,
            "High prescription rate and/or recent entry to practice"%string);
           ("Evidence Driven"%string,
            "Significant experience and moderate prescription patterns"%string);
           ("Mainstream"%string,
            "Average prescription rate with balanced approach"%string);
           ("Conservative"%string,
            "Lower prescription rate, likely preferring established treatments"%string);
           ("General"%string,
            "Insufficient data for detailed segmentation"%string) ].
Proof.
  exists (segmentHCP (parseHCPData hcpText)). split; [reflexivity|].
  pose proof (segmentBase_cases (parseHCPData hcpText)) as H.
  unfold segmentHCP. destruct (segmentBase (parseHCPData hcpText)) as [seg conf].
  split; [reflexivity|].
  simpl in H |- *.
  repeat (destruct H as [[= <- <-] | H]; [simpl; tauto|]).
  contradiction.
Qed.

(** X3: a text that holds neither label, in whatever case, is segmented as
    General for lack of data, with confidence 0.7, or 0.6 after the
    specialty adjustment. *)
Theorem segmenter_unlabelled_text_is_general (hcpText : string) :
  includes (toLowerCase hcpText) "prescription_rate:" = false ->
  includes (toLowerCase hcpText) "years_experience:" = false ->
  exists r,
    analyzeHCP hcpText = Ok r
    /\ segment r = "General"%string
    /\ segmentReason r = "Insufficient data for detailed segmentation"%string
    /\ (confidence r = 0.7 \/ confidence r = 0.6).
Proof.
  intros Hrate Hyears.
  exists (segmentHCP (parseHCPData hcpText)). split; [reflexivity|].
  assert (Hr : prescription_rate (parseHCPData hcpText) = None).
  { simpl. destruct (match_field "prescription_rate:" digit_or_dot hcpText) eqn:E;
      [|reflexivity].
    apply match_field_includes in E. change (toLowerCase "prescription_rate:")
      with "prescription_rate:"%string in E. congruence. }
  assert (Hy : years_experience (parseHCPData hcpText) = None).
  { simpl. destruct (match_field "years_experience:" is_digit hcpText) eqn:E;
      [|reflexivity].
    apply match_field_includes in E. change (toLowerCase "years_experience:")
      with "years_experience:"%string in E. congruence. }
  unfold segmentHCP, segmentBase. rewrite Hr, Hy. cbn [segment segmentReason confidence].
  split; [reflexivity|]. split; [reflexivity|].
  unfold specialtyAdjust.
  destruct (str_eq (specialty (parseHCPData hcpText)) "Oncology"),
           (str_eq (specialty (parseHCPData hcpText)) "Cardiology"),
           (str_eq (practice_size (parseHCPData hcpText)) "large");
    vm_compute; auto.
Qed.

Lemma segmenter_unlabelled_text_is_general_witness :
  exists r,
    analyzeHCP VideoService.defaultHcpText = Ok r
    /\ segment r = "General"%string
    /\ (confidence r = 0.7 \/ confidence r = 0.6).
Proof.
  destruct (@segmenter_unlabelled_text_is_general VideoService.defaultHcpText
              eq_refl eq_refl) as (r & Hr & Hs & _ & Hc).
  exists r. auto.
Defined.

(** X4: a number written after its label is the number the Segmenter works
    with.  In a text made of any prefix that does not hold the label, the
    label in any case, optional white space, a run of digits and dots
    (digits, for the years) and a rest that does not continue the run, the
    parsed prescription rate is [parseFloat] of the run and the parsed years
    are [parseInt] of the run. *)
Theorem segmenter_reads_labelled_numbers (pre L ws ds post : string) :
  all_chars is_space ws = true ->
  ds <> ""%string ->
  (includes (toLowerCase pre) "prescription_rate:" = false ->
   toLowerCase L = "prescription_rate:"%string ->
   all_chars digit_or_dot ds = true ->
   starts_with_char digit_or_dot post = false ->
   prescription_rate (parseHCPData (pre ++ L ++ ws ++ ds ++ post))
   = Some (parseFloat ds))
  /\ (includes (toLowerCase pre) "years_experience:" = false ->
      toLowerCase L = "years_experience:"%string ->
      all_chars is_digit ds = true ->
      starts_with_char is_digit post = false ->
      years_experience (parseHCPData (pre ++ L ++ ws ++ ds ++ post))
      = Some (JS.parseInt ds)).
Proof.
  intros Hws Hne. split; intros Hpre HL Hds Hpost; simpl.
  - rewrite (@match_field_first_occurrence ":" "prescription_rate:" digit_or_dot
               pre L (ws ++ ds ++ post) ds); try reflexivity; try assumption.
    apply capture_after_spaces_run; try assumption.
    + now apply all_chars_first.
    + apply (first_not_space digit_or_dot); [exact digit_or_dot_not_space|].
      now apply all_chars_first.
  - rewrite (@match_field_first_occurrence ":" "years_experience:" is_digit
               pre L (ws ++ ds ++ post) ds); try reflexivity; try assumption.
    apply capture_after_spaces_run; try assumption.
    + now apply all_chars_first.
    + apply (first_not_space is_digit); [exact is_digit_not_space|].
      now apply all_chars_first.
Qed.

Lemma segmenter_reads_labelled_numbers_witness :
  prescription_rate
    (parseHCPData ("Cardiologist, " ++ "Prescription_Rate:" ++ " " ++ "0.8"
                   ++ ", years_experience: 12"))
  = Some 0.8.
Proof.
  destruct (@segmenter_reads_labelled_numbers "Cardiologist, " "Prescription_Rate:"
              " " "0.8" ", years_experience: 12" eq_refl) as (H & _);
    [discriminate|].
  rewrite H by reflexivity. reflexivity.
Defined.

End MoreSegmenter.

(** ** Compliance Evaluator and LLM service: what else they guarantee *)

Section MoreCompliance.

Import Compliance.

Lemma has_term_context (terms : list string) (term w a b : string) :
  In term terms -> toLowerCase w = term -> has_term terms (a ++ w ++ b).
Proof.
  intros Hin Hw. exists term, (toLowerCase a), (toLowerCase b).
  split; [assumption|]. now rewrite !toLowerCase_app, Hw.
Qed.

(** X5: the status Failed has exactly one origin: the LLM verdict arrived,
    did not pass, scored below 60 (or not comparably), and the script holds
    no evidence-language marker. *)
Theorem failed_status_characterised (svc : OpenAI.Service) (script : string) :
  exists r,
    evaluateCompliance svc script = Ok r
    /\ (status r = Failed <->
        exists d,
          OpenAI.checkCompliance svc script = Ok d
          /\ OpenAI.passed d = false
          /\ (60 <=? OpenAI.score d) = false
          /\ ~ has_term evidenceTerms script).
Proof.
  destruct (OpenAI.checkCompliance svc script) as [d|e] eqn:H.
  - eexists. split; [apply (evaluateCompliance_primary _ _ H)|].
    unfold ge. simpl.
    destruct (OpenAI.passed d) eqn:Hp, (60 <=? OpenAI.score d) eqn:Hs,
      (containsEvidenceBasedLanguage script) eqn:Hm; simpl; split;
      try discriminate;
      try (intros (d' & [= <-] & H1 & H2 & H3); try congruence;
           exfalso; apply H3; now apply containsEvidenceBasedLanguage_spec).
    intros _. exists d. repeat split; auto.
    intros Hh. apply containsEvidenceBasedLanguage_spec in Hh. congruence.
  - eexists. split; [apply (evaluateCompliance_fallback _ _ H)|].
    simpl. split.
    + destruct (simpleComplianceCheck script); discriminate.
    + intros (d & Hd & _). discriminate.
Qed.

(** X6: the [passed] flag of the result always agrees with the [passed]
    field of the details it carries, on both paths, also when the status was
    lifted from Failed to Review. *)
Theorem result_passed_matches_details (svc : OpenAI.Service) (script : string) :
  exists r,
    evaluateCompliance svc script = Ok r
    /\ passed r = OpenAI.passed (details r)
    /\ (OpenAI.passed (details r) = false -> status r <> Passed).
Proof.
  destruct (OpenAI.checkCompliance svc script) as [d|e] eqn:H.
  - eexists. split; [apply (evaluateCompliance_primary _ _ H)|].
    simpl. destruct (OpenAI.passed d), (ge (OpenAI.score d) 60),
      (containsEvidenceBasedLanguage script); simpl; split; congruence.
  - eexists. split; [apply (evaluateCompliance_fallback _ _ H)|].
    simpl. destruct (simpleComplianceCheck script); split; congruence.
Qed.

(** X7: the marker scan is a plain substring scan on the lower-cased
    script: an evidence term in any mix of cases, with any text before and
    after it (letters of a longer word included), counts, and such a script
    never gets the status Failed. *)
Theorem evidence_term_in_any_case_and_context (svc : OpenAI.Service)
    (term w a b : string) :
  In term evidenceTerms ->
  toLowerCase w = term ->
  containsEvidenceBasedLanguage (a ++ w ++ b) = true
  /\ exists r, evaluateCompliance svc (a ++ w ++ b) = Ok r /\ status r <> Failed.
Proof.
  intros Hin Hw.
  assert (Hm : containsEvidenceBasedLanguage (a ++ w ++ b) = true)
    by (apply containsEvidenceBasedLanguage_spec; now apply has_term_context with term).
  split; [exact Hm|].
  destruct (OpenAI.checkCompliance svc (a ++ w ++ b)) as [d|e] eqn:H.
  - eexists. split; [apply (evaluateCompliance_primary _ _ H)|].
    simpl. rewrite Hm.
    destruct (OpenAI.passed d), (ge (OpenAI.score d) 60); discriminate.
  - eexists. split; [apply (evaluateCompliance_fallback _ _ H)|].
    simpl. destruct (simpleComplianceCheck _); discriminate.
Qed.

Lemma evidence_term_in_any_case_and_context_witness :
  containsEvidenceBasedLanguage ("These are " ++ "UnProven" ++ " claims.") = true
  /\ exists r,
       evaluateCompliance Samples.strict_service ("These are " ++ "UnProven" ++ " claims.")
       = Ok r
       /\ status r <> Failed.
Proof.
  apply (@evidence_term_in_any_case_and_context Samples.strict_service
           "proven" "Proven" "These are Un" " claims.").
  - simpl. tauto.
  - reflexivity.
Defined.

(** X8: on the failure path a banned marketing term anywhere in the script,
    in any case and inside any word, rules out Passed: the result is Review
    with score 50, whatever evidence language the script also holds. *)
Theorem banned_term_forces_review_in_fallback (svc : OpenAI.Service) (e : Error)
    (term w a b : string) :
  OpenAI.checkCompliance svc (a ++ w ++ b) = Throw e ->
  In term nonCompliantTerms ->
  toLowerCase w = term ->
  exists r,
    evaluateCompliance svc (a ++ w ++ b) = Ok r
    /\ status r = Review
    /\ passed r = false
    /\ OpenAI.score (details r) = 50.
Proof.
  intros H Hin Hw.
  eexists. split; [apply (evaluateCompliance_fallback _ _ H)|].
  assert (Hs : simpleComplianceCheck (a ++ w ++ b) = false).
  { apply not_true_iff_false. rewrite simpleComplianceCheck_spec.
    intros [_ Hn]. apply Hn. now apply has_term_context with term. }
  simpl. rewrite Hs. repeat split.
Qed.

Lemma banned_term_forces_review_in_fallback_witness :
  exists r,
    evaluateCompliance Samples.offline_service ("A " ++ "seCURE" ++ ", proven therapy.")
    = Ok r
    /\ status r = Review.
Proof.
  destruct (@banned_term_forces_review_in_fallback Samples.offline_service
              (error "Failed to check compliance. Please try again later.")
              "cure" "CURE" "A se" ", proven therapy." eq_refl)
    as (r & Hr & Hs & _); [simpl; tauto | reflexivity |].
  exists r. split; assumption.
Defined.


(** X9: the two LLM wrappers succeed exactly when the service's reply
    parses, then return its fields unchanged; every failure, whatever the
    provider's own error was, leaves as the wrapper's one generic error. *)
Theorem llm_wrappers_hide_provider_errors (svc : OpenAI.Service)
    (hcpText prompt script : string) (documentPath : option string) :
  (forall r,
     OpenAI.generateScript svc hcpText prompt documentPath = Ok r
     <-> OpenAI.chat_script svc (OpenAI.scriptRequest svc hcpText prompt documentPath)
         = OpenAI.Json r)
  /\ (forall e,
        OpenAI.generateScript svc hcpText prompt documentPath = Throw e ->
        e = OpenAI.scriptError)
  /\ (forall d,
        OpenAI.checkCompliance svc script = Ok d
        <-> OpenAI.chat_compliance svc
              ("Evaluate this script for PMDA compliance:" ++ OpenAI.nl ++ OpenAI.nl ++ script)
            = OpenAI.Json d)
  /\ (forall e,
        OpenAI.checkCompliance svc script = Throw e ->
        e = error "Failed to check compliance. Please try again later.").
Proof.
  unfold OpenAI.generateScript, OpenAI.checkCompliance.
  repeat split.
  - destruct (OpenAI.chat_script svc _) as [e'| |r']; simpl; try discriminate.
    intros [= <-]. now destruct r'.
  - intros ->. simpl. now destruct r.
  - destruct (OpenAI.chat_script svc _) as [e'| |r']; simpl; congruence.
  - destruct (OpenAI.chat_compliance svc _) as [e'| |r']; simpl; try discriminate.
    intros [= <-]. now destruct r'.
  - intros ->. simpl. now destruct d.
  - destruct (OpenAI.chat_compliance svc _) as [e'| |r']; simpl; congruence.
Qed.

End MoreCompliance.

(** ** Video Synthesizer: the success paths *)

Section MoreSynthesizer.

Import HeyGen.

Lemma replace_no_match (s pat rep : string) :
  includes s pat = false -> replace s pat rep = s.
Proof.
  induction s as [|c s IH]; simpl; unfold startsWith;
    destruct (strip_prefix pat _); simpl; try discriminate; try reflexivity.
  intros H. now rewrite IH.
Qed.

Lemma replace_first_match (s pat rep : string) :
  includes s pat = true ->
  exists a b,
    s = (a ++ pat ++ b)%string
    /\ replace s pat rep = (a ++ rep ++ b)%string
    /\ forall a' b', s = (a' ++ pat ++ b')%string ->
                     (String.length a <= String.length a')%nat.
Proof.
  induction s as [|c s IH]; simpl; unfold startsWith;
    destruct (strip_prefix pat _) as [rest|] eqn:E; simpl; try discriminate.
  - intros _. exists ""%string, rest. apply strip_prefix_Some in E.
    repeat split; [assumption | simpl; intros; lia].
  - intros _. exists ""%string, rest. apply strip_prefix_Some in E.
    repeat split; [assumption | simpl; intros; lia].
  - intros H. destruct (IH H) as (a & b & Hs & Hr & Hmin).
    exists (String c a), b. split; [simpl; now rewrite <- Hs|].
    split; [simpl; now rewrite Hr|].
    intros [|c' a'] b' Heq; simpl in Heq.
    + rewrite Heq, strip_prefix_app in E. discriminate.
    + injection Heq as _ Heq. specialize (Hmin _ _ Heq). simpl. lia.
Qed.

(** X10: the thumbnail URL is the video URL with its first ".mp4" turned
    into ".jpg": it has the same length, later occurrences of ".mp4" stay,
    and a URL without ".mp4" is returned unchanged (the thumbnail then is
    the video itself). *)
Theorem thumbnail_replaces_first_mp4 (videoUrl : string) :
  String.length (generateThumbnailUrl videoUrl) = String.length videoUrl
  /\ (includes videoUrl ".mp4" = false -> generateThumbnailUrl videoUrl = videoUrl)
  /\ (includes videoUrl ".mp4" = true ->
      exists a b,
        videoUrl = (a ++ ".mp4" ++ b)%string
        /\ generateThumbnailUrl videoUrl = (a ++ ".jpg" ++ b)%string
        /\ forall a' b', videoUrl = (a' ++ ".mp4" ++ b')%string ->
                         (String.length a <= String.length a')%nat).
Proof.
  unfold generateThumbnailUrl.
  destruct (includes videoUrl ".mp4") eqn:H.
  - destruct (replace_first_match videoUrl ".mp4" ".jpg" H) as (a & b & Hs & Hr & Hmin).
    split; [|split; [discriminate|]].
    + rewrite Hr. rewrite Hs. now rewrite !length_app.
    + intros _. now exists a, b.
  - rewrite (replace_no_match _ _ _ H). repeat split. discriminate.
Qed.

Lemma thumbnail_replaces_first_mp4_witness :
  exists a b,
    "https://cdn.example.com/a.mp4?src=b.mp4"%string = (a ++ ".mp4" ++ b)%string
    /\ generateThumbnailUrl "https://cdn.example.com/a.mp4?src=b.mp4"
       = (a ++ ".jpg" ++ b)%string.
Proof.
  destruct (thumbnail_replaces_first_mp4 "https://cdn.example.com/a.mp4?src=b.mp4")
    as (_ & _ & H).
  destruct (H eq_refl) as (a & b & Hs & Hr & _).
  exists a, b. split; assumption.
Defined.

Lemma replace_nonempty (s pat rep : string) :
  s <> ""%string -> rep <> ""%string -> replace s pat rep <> ""%string.
Proof.
  intros Hs Hrep. destruct s as [|c s]; [contradiction|].
  simpl. destruct (strip_prefix pat (String c s)); [|discriminate].
  destruct rep; [contradiction | discriminate].
Qed.

Lemma checkVideoStatus_first (p : Provider) (videoId apiKey u : string) :
  get_video_status p videoId = Ok (Some u) -> truthy_string u = true ->
  checkVideoStatus p videoId apiKey = Ok u.
Proof.
  intros H Hu. unfold checkVideoStatus, await. rewrite H. simpl. now rewrite Hu.
Qed.

Lemma checkVideoStatus_second (p : Provider) (videoId apiKey u : string) :
  has_url (get_video_status p videoId) = false ->
  get_task_status p videoId = Ok (Some u) -> truthy_string u = true ->
  checkVideoStatus p videoId apiKey = Ok u.
Proof.
  intros H1 H2 Hu. unfold checkVideoStatus, await, has_url in *.
  destruct (get_video_status p videoId) as [u1|e1]; simpl.
  - rewrite H1. simpl. rewrite H2. simpl. now rewrite Hu.
  - rewrite H2. simpl. now rewrite Hu.
Qed.

Lemma submitVideo_truthy (p : Provider) (avatarId script id : string) :
  submitVideo p avatarId script = Ok id -> truthy_string id = true.
Proof.
  unfold submitVideo, await.
  destruct (post_v2_generate p avatarId script) as [[i|]|e]; simpl;
    try (destruct (truthy_string i) eqn:Hi; simpl; [now intros [= <-]|]).
  all: destruct (post_v1_generate p avatarId script) as [b|e1]; simpl;
    try discriminate.
  all: destruct (v1_status b =? "success")%string; simpl; try discriminate.
  all: destruct (v1_task_id b) as [t|]; simpl; try discriminate.
  all: destruct (truthy_string t) eqn:Ht; simpl; try discriminate.
  all: now intros [= <-].
Qed.

(** X11: with an API key and an accepted job, the synthesizer returns the
    provider's URL, its thumbnail and the job id; the URL of the
    video-status endpoint wins, the task-status endpoint is used only when
    the first one has no URL. *)
Theorem heygen_success_result (p : Provider) (script targetHCP apiKey id : string) :
  HEYGEN_API_KEY p = Some apiKey ->
  truthy_string apiKey = true ->
  submitVideo p (getAvatarForHCP targetHCP) script = Ok id ->
  (forall u,
     get_video_status p id = Ok (Some u) -> truthy_string u = true ->
     generateVideo p script targetHCP
     = Ok {| videoUrl := u; thumbnailUrl := generateThumbnailUrl u; videoId := id |})
  /\ (forall u,
        has_url (get_video_status p id) = false ->
        get_task_status p id = Ok (Some u) -> truthy_string u = true ->
        generateVideo p script targetHCP
        = Ok {| videoUrl := u; thumbnailUrl := generateThumbnailUrl u; videoId := id |}).
Proof.
  intros Hk Hkt Hs. unfold generateVideo. rewrite Hk, Hkt, Hs. simpl. split.
  - intros u H Hu. now rewrite (checkVideoStatus_first p id apiKey H Hu).
  - intros u H1 H2 Hu. now rewrite (checkVideoStatus_second p id apiKey H1 H2 Hu).
Qed.

Lemma heygen_success_result_witness :
  generateVideo Samples.legacy_provider "Proven in a clinical trial." "Oncologist"
  = Ok {| videoUrl := "https://cdn.example.com/out/task-7.mp4";
          thumbnailUrl := "https://cdn.example.com/out/task-7.jpg";
          videoId := "task-7" |}.
Proof.
  destruct (@heygen_success_result Samples.legacy_provider
              "Proven in a clinical trial." "Oncologist" "key" "task-7"
              eq_refl eq_refl eq_refl) as (_ & H).
  exact (H "https://cdn.example.com/out/task-7.mp4"%string eq_refl eq_refl eq_refl).
Defined.

(** X12: job submission tries the v2 endpoint first and keeps its id; the
    v1 endpoint is asked only when v2 rejects or answers without an id, and
    its task id counts only when the answer says "success".  When neither
    yields an id the submission throws. *)
Theorem submitVideo_order (p : Provider) (avatarId script : string) :
  (forall id,
     post_v2_generate p avatarId script = Ok (Some id) -> truthy_string id = true ->
     submitVideo p avatarId script = Ok id)
  /\ (forall b id,
        has_url (post_v2_generate p avatarId script) = false ->
        post_v1_generate p avatarId script = Ok b ->
        v1_status b = "success"%string ->
        v1_task_id b = Some id -> truthy_string id = true ->
        submitVideo p avatarId script = Ok id)
  /\ (has_url (post_v2_generate p avatarId script) = false ->
      (forall b, post_v1_generate p avatarId script = Ok b ->
                 v1_status b <> "success"%string
                 \/ truthy_opt_string (v1_task_id b) = false) ->
      exists e, submitVideo p avatarId script = Throw e).
Proof.
  unfold submitVideo, await, has_url. repeat split.
  - intros id -> Hid. simpl. now rewrite Hid.
  - intros b id H2 -> Hst Hid Ht.
    destruct (post_v2_generate p avatarId script) as [r|e]; simpl;
      [rewrite H2|]; simpl; rewrite Hst, Hid; simpl; now rewrite Ht.
  - intros H2 H1.
    destruct (post_v2_generate p avatarId script) as [r|e2]; simpl;
      [rewrite H2|]; simpl;
      (destruct (post_v1_generate p avatarId script) as [b|e1]; simpl; [|eauto];
       destruct (H1 b eq_refl) as [Hne | Hno];
       [ destruct (String.eqb_spec (v1_status b) "success"); [contradiction|];
         simpl; eauto
       | rewrite Hno, andb_false_r; eauto ]).
Qed.

Lemma submitVideo_order_witness :
  submitVideo Samples.legacy_provider "Dave-headshot-20240205" "Proven in a clinical trial."
  = Ok "task-7"%string.
Proof.
  destruct (submitVideo_order Samples.legacy_provider "Dave-headshot-20240205"
              "Proven in a clinical trial.") as (_ & H & _).
  exact (H _ "task-7"%string eq_refl eq_refl eq_refl eq_refl eq_refl).
Defined.

(** X13: whatever the provider does, none of the three fields the
    synthesizer returns is the empty string. *)
Theorem heygen_result_fields_nonempty (p : Provider) (script targetHCP : string) :
  exists r,
    generateVideo p script targetHCP = Ok r
    /\ videoUrl r <> ""%string
    /\ thumbnailUrl r <> ""%string
    /\ videoId r <> ""%string.
Proof.
  unfold generateVideo.
  destruct (HEYGEN_API_KEY p) as [apiKey|]; simpl.
  2: { exists placeholderResult. repeat split; discriminate. }
  destruct (truthy_string apiKey); simpl.
  2: { exists placeholderResult. repeat split; discriminate. }
  destruct (submitVideo p (getAvatarForHCP targetHCP) script) as [id|e] eqn:Hs; simpl.
  2: { exists placeholderResult. repeat split; discriminate. }
  destruct (checkVideoStatus_total p id apiKey) as (url & Hu & Hne).
  rewrite Hu. simpl. eexists. split; [reflexivity|]. simpl.
  repeat split.
  - exact Hne.
  - apply replace_nonempty; [exact Hne | discriminate].
  - apply truthy_string_nonempty. exact (submitVideo_truthy _ _ _ Hs).
Qed.

(** X14: the second provider keeps the id of an accepted job as well, but
    never a URL of the provider: the two URLs are the placeholders. *)
Theorem veo_accepted_job_result (q : Veo.Provider) (script targetHCP apiKey id : string)
    (b : Veo.Body) :
  Veo.VEO_API_KEY q = Some apiKey ->
  truthy_string apiKey = true ->
  Veo.post_generate q script (Veo.getSpeakerForHCP targetHCP) = Ok b ->
  Veo.body_id b = Some id ->
  truthy_string id = true ->
  Veo.generateVideo q script targetHCP
  = Ok {| Veo.videoUrl := placeholderVideoUrl;
          Veo.thumbnailUrl := placeholderThumbnailUrl;
          Veo.videoId := id |}.
Proof.
  intros Hk Hkt Hp Hb Hid. unfold Veo.generateVideo.
  rewrite Hk, Hkt, Hp. simpl. rewrite Hb. simpl. now rewrite Hid.
Qed.

Lemma veo_accepted_job_result_witness :
  Veo.generateVideo Samples.veo_provider "Proven in a clinical trial." "Oncologist"
  = Ok {| Veo.videoUrl := placeholderVideoUrl;
          Veo.thumbnailUrl := placeholderThumbnailUrl;
          Veo.videoId := "veo-42" |}.
Proof.
  exact (@veo_accepted_job_result Samples.veo_provider "Proven in a clinical trial."
           "Oncologist" "key" "veo-42" _ eq_refl eq_refl eq_refl eq_refl eq_refl).
Defined.

End MoreSynthesizer.

(** ** Pipeline Orchestrator: titles, input resolution, stored rows *)

Section MoreOrchestrator.

Import Text Storage VideoService.

Local Open Scope Z_scope.











(** Input resolution either yields an input, leaving [videos] alone, or
    fails because the upload id given is not in the store. *)
Lemma resolveInput_cases (uploadId : option Z) (hcpText : option string) (st : Store) :
  (exists input st1,
     resolveInput uploadId hcpText st = (Ok input, st1) /\ videos st1 = videos st)
  \/ (exists id,
        uploadId = Some id /\ id <> 0
        /\ find (fun u => upload_id_of u =? id) (uploads st) = None
        /\ resolveInput uploadId hcpText st
           = (Throw (error ("Upload with ID " ++ string_of_Z id ++ " not found")), st)).
Proof.
  pose proof (resolveInput_videos uploadId hcpText st) as Hv.
  unfold resolveInput in *. destruct uploadId as [id|]; simpl in *.
  - unfold truthy_Z in *. destruct (Z.eqb_spec id 0) as [->|Hne]; simpl in *.
    + left. destruct (resolveInput (Some 0) hcpText st) as [[input|e] st1] eqn:E;
        unfold resolveInput in E; simpl in E; rewrite E in Hv |- *.
      * eauto.
      * exfalso. revert E. unfold Storage.bind, Storage.createUpload, ret.
        destruct (truthy_opt_string hcpText); [|discriminate].
        destruct (truthy_string (trim _)); discriminate.
    + unfold Storage.bind, Storage.getUpload, ret, throw in *.
      destruct (find _ (uploads st)) as [u|] eqn:F.
      * left. eauto.
      * right. exists id. auto.
  - left. unfold Storage.bind, Storage.createUpload, ret in *.
    destruct (truthy_opt_string hcpText); [|eauto].
    destruct (truthy_string (trim _)); eauto.
Qed.

(** The row a run stores, field by field. *)
Lemma runPipeline_row (w : World) (prompt t : string) (u : option Z) (d : option string)
    (sr : OpenAI.ScriptGenerationResult) (cr : Compliance.ComplianceResult)
    (vr : HeyGen.HeyGenVideoGenerationResult) (st : Store) :
  OpenAI.generateScript (openai w) t prompt d = Ok sr ->
  Compliance.evaluateCompliance (openai w) (OpenAI.script sr) = Ok cr ->
  HeyGen.generateVideo (heygen w) (OpenAI.script sr) (OpenAI.targetAudience sr) = Ok vr ->
  exists v,
    runPipeline w prompt (t, u, d) st
    = (Ok v, {| uploads := uploads st; videos := v :: videos st;
                uploads_seq := uploads_seq st; videos_seq := videos_seq st + 1 |})
    /\ video_id_of v = videos_seq st + 1
    /\ title (row v) = getVideoTitle prompt (OpenAI.targetAudience sr)
    /\ Storage.prompt (row v) = prompt
    /\ target_hcp (row v) = OpenAI.targetAudience sr
    /\ duration (row v) = OpenAI.duration sr
    /\ generated_script (row v) = Some (OpenAI.script sr)
    /\ compliance_details (row v) = Some (Compliance.details cr)
    /\ compliance_status (row v)
       = match Compliance.status cr with
         | Compliance.Passed => "Passed"
         | Compliance.Review => "Review"
         | Compliance.Failed => "Failed"
         end%string
    /\ meditag_segment (row v)
       = Some (Meditag.segment (Meditag.segmentHCP (Meditag.parseHCPData t))).
Proof.
  intros Hs Hc Hv.
  unfold runPipeline, Storage.bind, lift, Storage.createVideo. simpl.
  rewrite Hs, Hc, Hv. eexists. split; [reflexivity|]. simpl. repeat split.
Qed.

(** What a successful [createVideo] implies. *)
Lemma createVideo_Ok_inv (w : World) (uploadId : option Z) (prompt : string)
    (hcpText : option string) (st st2 : Store) (v : Video) :
  createVideo w uploadId prompt hcpText st = (Ok v, st2) ->
  exists t u d st1 sr cr vr,
    resolveInput uploadId hcpText st = (Ok (t, u, d), st1)
    /\ videos st1 = videos st
    /\ OpenAI.generateScript (openai w) t prompt d = Ok sr
    /\ Compliance.evaluateCompliance (openai w) (OpenAI.script sr) = Ok cr
    /\ HeyGen.generateVideo (heygen w) (OpenAI.script sr) (OpenAI.targetAudience sr) = Ok vr
    /\ runPipeline w prompt (t, u, d) st1 = (Ok v, st2)
    /\ st2 = {| uploads := uploads st1; videos := v :: videos st1;
                uploads_seq := uploads_seq st1; videos_seq := videos_seq st1 + 1 |}.
Proof.
  rewrite createVideo_unfold.
  destruct (resolveInput_cases uploadId hcpText st)
    as [(input & st1 & Hr & Hvs) | (id & _ & _ & _ & Hr)]; rewrite Hr; [|discriminate].
  destruct input as [[t u] d]. intros Hrun.
  destruct (OpenAI.generateScript (openai w) t prompt d) as [sr|e] eqn:Hs.
  2: { rewrite (@runPipeline_script_failure w prompt (t, u, d) e st1 Hs) in Hrun.
       discriminate. }
  destruct (evaluateCompliance_total (openai w) (OpenAI.script sr)) as (cr & Hc).
  destruct (heygen_generateVideo_cases (heygen w) (OpenAI.script sr)
              (OpenAI.targetAudience sr)) as (vr & Hv & _).
  destruct (@runPipeline_row w prompt t u d sr cr vr st1 Hs Hc Hv) as (v' & Hrun' & _).
  rewrite Hrun' in Hrun. injection Hrun as <- <-.
  exists t, u, d, st1, sr, cr, vr. repeat split; assumption.
Qed.

(** Looking an upload up by its id. *)
Lemma resolveInput_existing (st : Store) (id : Z) (u : Upload) (hcpText : option string) :
  id <> 0 ->
  find (fun u => upload_id_of u =? id) (uploads st) = Some u ->
  resolveInput (Some id) hcpText st = (Ok (hcp_text u, Some id, document_path u), st).
Proof.
  intros Hne Hfind. unfold resolveInput. simpl. unfold truthy_Z.
  destruct (Z.eqb_spec id 0); [contradiction|]. simpl.
  unfold Storage.bind, Storage.getUpload. now rewrite Hfind.
Qed.

(** X16: a run given an existing upload id works on that upload: it takes
    the stored text and document, ignores any HCP text passed along, stores
    no new upload, and the video it creates points at the upload. *)
Theorem existing_upload_is_reused (w : World) (st : Store) (id : Z) (u : Upload)
    (prompt : string) (hcpText : option string) :
  id <> 0 ->
  find (fun u => upload_id_of u =? id) (uploads st) = Some u ->
  resolveInput (Some id) hcpText st = (Ok (hcp_text u, Some id, document_path u), st)
  /\ forall sr,
       OpenAI.generateScript (openai w) (hcp_text u) prompt (document_path u) = Ok sr ->
       exists v st2,
         createVideo w (Some id) prompt hcpText st = (Ok v, st2)
         /\ uploads st2 = uploads st
         /\ videos st2 = v :: videos st
         /\ upload_id (row v) = id.
Proof.
  intros Hne Hfind.
  assert (Hres : resolveInput (Some id) hcpText st
                 = (Ok (hcp_text u, Some id, document_path u), st))
    by now apply resolveInput_existing.
  split; [exact Hres|]. intros sr Hgen.
  rewrite createVideo_unfold, Hres.
  destruct (@runPipeline_script_ok w prompt (hcp_text u, Some id, document_path u) sr st Hgen)
    as (v & vr & Hrun & _ & _ & _ & Hup).
  rewrite Hrun. eexists. eexists. split; [reflexivity|]. simpl. repeat split.
  rewrite Hup. simpl. unfold truthy_Z. now destruct (Z.eqb_spec id 0).
Qed.

Lemma existing_upload_is_reused_witness :
  exists v st2,
    createVideo Samples.demo_world (Some 4) "Create a video"
      (Some "text that is ignored"%string) Samples.one_upload
    = (Ok v, st2)
    /\ uploads st2 = uploads Samples.one_upload
    /\ upload_id (row v) = 4.
Proof.
  destruct (@existing_upload_is_reused Samples.demo_world Samples.one_upload 4
              {| upload_id_of := 4; user_id := "u-17";
                 hcp_text := "Oncologist, prescription_rate: 0.5";
                 document_path := Some "/uploads/1700000000000.txt"%string |}
              "Create a video" (Some "text that is ignored"%string))
    as (_ & H); [discriminate | reflexivity |].
  destruct (H _ eq_refl) as (v & st2 & Hrun & Hu & _ & Hid).
  exists v, st2. repeat split; assumption.
Defined.

(** X17: a run given an upload id that is not in the store aborts with
    "Upload with ID <id> not found" and leaves the store as it was: no
    upload, no video. *)
Theorem missing_upload_aborts (w : World) (st : Store) (id : Z)
    (prompt : string) (hcpText : option string) :
  id <> 0 ->
  find (fun u => upload_id_of u =? id) (uploads st) = None ->
  createVideo w (Some id) prompt hcpText st
  = (Throw (error ("Upload with ID " ++ string_of_Z id ++ " not found")), st).
Proof.
  intros Hne Hfind. rewrite createVideo_unfold.
  unfold resolveInput. simpl. unfold truthy_Z.
  destruct (Z.eqb_spec id 0); [contradiction|]. simpl.
  unfold Storage.bind, Storage.getUpload. now rewrite Hfind.
Qed.

Lemma missing_upload_aborts_witness :
  createVideo Samples.demo_world (Some 5) "Create a video" None Samples.one_upload
  = (Throw (error "Upload with ID 5 not found"), Samples.one_upload).
Proof.
  apply (@missing_upload_aborts Samples.demo_world Samples.one_upload 5
           "Create a video" None); [discriminate | reflexivity].
Defined.



(** X19: a video that [createVideo] returned can be read back: [getVideo]
    of its id returns it, it heads the newest-first listing, and the
    statistics count one video more than the table held before the run. *)
Theorem created_video_is_stored (w : World) (uploadId : option Z) (prompt : string)
    (hcpText : option string) (st st2 : Store) (v : Video) :
  createVideo w uploadId prompt hcpText st = (Ok v, st2) ->
  videos st2 = v :: videos st
  /\ getVideo (video_id_of v) st2 = (Ok v, st2)
  /\ listVideos (Some 1%nat) st2 = (Ok [v], st2)
  /\ exists stats,
       getComplianceStats st2 = (Ok stats, st2)
       /\ videos_generated stats = Z.of_nat (List.length (videos st)) + 1.
Proof.
  intros H. apply createVideo_Ok_inv in H
    as (t & u & d & st1 & sr & cr & vr & _ & Hvs & _ & _ & _ & _ & ->).
  simpl. rewrite Hvs. split; [reflexivity|]. split; [|split].
  - unfold getVideo, Storage.bind, Storage.getVideo. simpl.
    now rewrite Z.eqb_refl.
  - reflexivity.
  - exists (complianceStatsOf (v :: videos st)). split; [reflexivity|].
    rewrite complianceStatsOf_aggregates. cbv zeta. cbn [videos_generated].
    unfold truthy_Z.
    destruct (Z.eqb_spec (Z.of_nat (List.length (v :: videos st))) 0) as [E|E];
      [simpl List.length in E; lia|].
    cbn [negb]. simpl List.length. lia.
Qed.

Lemma created_video_is_stored_witness :
  exists v st2,
    createVideo Samples.demo_world None "Create a video" None Samples.three_videos
    = (Ok v, st2)
    /\ getVideo (video_id_of v) st2 = (Ok v, st2)
    /\ exists stats,
         getComplianceStats st2 = (Ok stats, st2) /\ videos_generated stats = 4.
Proof.
  eexists. eexists. split; [reflexivity|].
  match goal with |- getVideo (video_id_of ?v) ?s = _ /\ _ =>
    destruct (@created_video_is_stored Samples.demo_world None "Create a video" None
                Samples.three_videos s v eq_refl) as (_ & Hg & _ & stats & Hs & Hn)
  end.
  split; [exact Hg|]. exists stats. split; [exact Hs | exact Hn].
Defined.



End MoreOrchestrator.

(** ** Statistics and the HTTP boundary *)

Section MoreController.

Import Text Storage VideoService Controller.

Local Open Scope Z_scope.

(** X21: the statistics never report zero: both counts are at least 1,
    because a count of zero is replaced by the display default; with at
    least one Passed row the passed count does not exceed the total. *)
Theorem stats_counts_are_positive (rows : list Video) :
  1 <= videos_generated (complianceStatsOf rows)
  /\ 1 <= videos_passed (complianceStatsOf rows)
  /\ (passedCount rows <> 0 ->
      videos_passed (complianceStatsOf rows) <= videos_generated (complianceStatsOf rows)).
Proof.
  rewrite complianceStatsOf_aggregates. cbv zeta. cbn [videos_generated videos_passed].
  unfold truthy_Z, passedCount.
  assert (Hle : (List.length (filter is_passed rows) <= List.length rows)%nat)
    by apply filter_length_le.
  destruct (Z.eqb_spec (Z.of_nat (List.length rows)) 0),
           (Z.eqb_spec (Z.of_nat (List.length (filter is_passed rows))) 0);
    cbn [negb]; repeat split; lia.
Qed.

Lemma stats_counts_are_positive_witness :
  videos_passed (complianceStatsOf (videos Samples.three_videos))
  <= videos_generated (complianceStatsOf (videos Samples.three_videos)).
Proof.
  destruct (stats_counts_are_positive (videos Samples.three_videos)) as (_ & _ & H).
  apply H. discriminate.
Defined.








(** X23: POST /api/upload answers 400 and stores nothing when the HCP text
    is missing or empty; otherwise it answers 201 with the id of a new
    upload that holds the text as sent, the user id or "anonymous", and the
    document path if one was given.  A later run given that id works on
    exactly this text and document. *)
Theorem uploadContent_responses (req : UploadRequest) (st : Store) :
  (truthy_opt_string (req_hcp_text req) = false ->
   uploadContent req st
   = (Ok {| status := 400; json := Message "HCP information is required" |}, st))
  /\ (forall t,
        req_hcp_text req = Some t -> truthy_string t = true ->
        exists u st2,
          uploadContent req st
          = (Ok {| status := 201;
                   json := UploadCreated (upload_id_of u)
                             "HCP information processed successfully" |}, st2)
          /\ uploads st2 = u :: uploads st
          /\ videos st2 = videos st
          /\ hcp_text u = t
          /\ user_id u = or_else (req_user_id req) "anonymous"
          /\ document_path u
             = (if truthy_opt_string (req_document_path req)
                then req_document_path req else None)
          /\ (upload_id_of u <> 0 ->
              forall hcpText,
                resolveInput (Some (upload_id_of u)) hcpText st2
                = (Ok (t, Some (upload_id_of u), document_path u), st2))).
Proof.
  unfold uploadContent, Storage.try_catch, Storage.bind, ret,
    VideoService.createUpload, Storage.createUpload.
  split.
  - now intros ->.
  - intros t Ht Htt. rewrite Ht. cbn [truthy_opt_string]. rewrite Htt. cbn [negb].
    eexists. eexists. split; [reflexivity|].
    cbn [uploads videos hcp_text user_id document_path upload_id_of or_else].
    rewrite Htt. repeat split.
    intros Hne hcpText.
    match goal with |- resolveInput (Some ?i) _ ?s = (Ok (_, _, ?d), _) =>
      refine (@resolveInput_existing s i
                {| upload_id_of := i; user_id := or_else (req_user_id req) "anonymous";
                   hcp_text := t; document_path := d |} hcpText Hne _)
    end.
    cbn [uploads find upload_id_of]. now rewrite Z.eqb_refl.
Qed.

Lemma uploadContent_responses_witness :
  exists u st2,
    uploadContent {| req_hcp_text := Some "Oncologist"%string;
                     req_document_path := None; req_user_id := None |} Storage.empty
    = (Ok {| status := 201;
             json := UploadCreated (upload_id_of u)
                       "HCP information processed successfully" |}, st2)
    /\ hcp_text u = "Oncologist"%string
    /\ user_id u = "anonymous"%string.
Proof.
  destruct (uploadContent_responses
              {| req_hcp_text := Some "Oncologist"%string;
                 req_document_path := None; req_user_id := None |} Storage.empty)
    as (_ & H).
  destruct (H "Oncologist"%string eq_refl eq_refl)
    as (u & st2 & Hrun & _ & _ & Ht & Hu & _).
  exists u, st2. repeat split; assumption.
Defined.




End MoreController.
